(** * Kern flow map: the data worker and the flow-data hook

    A shallow embedding of [src/data/data.worker.ts] (the classifier
    [getFeatureType] and the reconciliation [fetchAndProcessDataForAllSources])
    and of [src/hooks/useFlowData.ts] (the module-level cache around the
    worker), with the properties the specification states about them. *)

From Stdlib Require Import ZArith NArith Ascii String List Bool Lia.
From stdpp Require Import base option strings pretty gmap list fin_maps.

Open Scope string_scope.
Open Scope list_scope.

(** ** The JavaScript values and built-ins the worker relies on *)

Module JS.

(** A JavaScript string is read as its sequence of UTF-16 code units; an
    [ascii] stands for the code unit of the same number, so the strings of
    this development are those over U+0000..U+00FF. *)

Definition code (a : ascii) : N := N_of_ascii a.

(** WhiteSpace and LineTerminator of ECMAScript, below U+0100:
    TAB, LF, VT, FF, CR, SP and NBSP. *)
Definition is_white (a : ascii) : bool :=
  let c := code a in
  ((9 <=? c) && (c <=? 13) || (c =? 32) || (c =? 160))%N.

Definition is_digit (a : ascii) : bool :=
  let c := code a in ((48 <=? c) && (c <=? 57))%N.

Definition digit_val (a : ascii) : N := (code a - 48)%N.

Fixpoint trimStart (s : string) : string :=
  match s with
  | String a s' => if is_white a then trimStart s' else s
  | EmptyString => EmptyString
  end.

Fixpoint trimEnd (s : string) : string :=
  match s with
  | EmptyString => EmptyString
  | String a s' =>
      match trimEnd s' with
      | EmptyString => if is_white a then EmptyString else String a EmptyString
      | t => String a t
      end
  end.

(** [String.prototype.trim] *)
Definition trim (s : string) : string := trimEnd (trimStart s).

Definition lower_char (a : ascii) : ascii :=
  let c := code a in
  if ((65 <=? c) && (c <=? 90)
      || (192 <=? c) && (c <=? 222) && negb (c =? 215))%N
  then ascii_of_N (c + 32) else a.

(** [String.prototype.toLowerCase] *)
Fixpoint toLowerCase (s : string) : string :=
  match s with
  | EmptyString => EmptyString
  | String a s' => String (lower_char a) (toLowerCase s')
  end.

Fixpoint startsWith (s pat : string) : bool :=
  match pat, s with
  | EmptyString, _ => true
  | String _ _, EmptyString => false
  | String p pat', String a s' => if Ascii.eqb a p then startsWith s' pat' else false
  end.

(** [String.prototype.includes] *)
Fixpoint includes (s pat : string) : bool :=
  startsWith s pat ||
  match s with
  | EmptyString => false
  | String _ s' => includes s' pat
  end.

Fixpoint drop_chars (n : nat) (s : string) : string :=
  match n, s with
  | O, _ => s
  | S _, EmptyString => EmptyString
  | S n', String _ s' => drop_chars n' s'
  end.

(** [String.prototype.replace] with a string pattern: only the first
    occurrence is replaced. *)
Fixpoint replace (s pat by_ : string) : string :=
  if startsWith s pat then by_ +:+ drop_chars (String.length pat) s
  else match s with
       | EmptyString => EmptyString
       | String a s' => String a (replace s' pat by_)
       end.

Fixpoint all_digits (s : string) : bool :=
  match s with
  | EmptyString => true
  | String a s' => is_digit a && all_digits s'
  end.

(** A string of white space only. *)
Fixpoint all_white (s : string) : bool :=
  match s with
  | EmptyString => true
  | String a s' => is_white a && all_white s'
  end.

(** [key.match(/^\d{4}$/)]: exactly four decimal digits. *)
Definition is_year (key : string) : bool :=
  Nat.eqb (String.length key) 4 && all_digits key.

(** *** Numbers

    A Number is NaN, an infinity, or a finite value.  A finite value is kept
    as the decimal it was written as, [(-1)^neg * digits * 10^exp10]; the
    rounding of that decimal to a binary64 is not part of the model (a
    decimal beyond the range of a binary64, which JavaScript rounds to an
    infinity, stays a decimal here). *)
Inductive jsnum : Type :=
| NaN
| Infinity (neg : bool)
| Finite (neg : bool) (digits : N) (exp10 : Z).

Definition zero : jsnum := Finite false 0 0.

Definition isNaN (n : jsnum) : bool :=
  match n with NaN => true | _ => false end.

Definition isFinite (n : jsnum) : bool :=
  match n with Finite _ _ _ => true | _ => false end.

(** Reads the longest run of decimal digits: its value, its length and the
    rest of the string. *)
Fixpoint span_digits (acc : N) (len : nat) (s : string) : N * nat * string :=
  match s with
  | String a s' =>
      if is_digit a then span_digits (acc * 10 + digit_val a) (S len) s'
      else (acc, len, s)
  | EmptyString => (acc, len, s)
  end.

(** The ExponentPart of a StrDecimalLiteral, when a complete one is there. *)
Definition exponent_part (s : string) : Z :=
  match s with
  | String c r =>
      if (Ascii.eqb c "e" || Ascii.eqb c "E")%bool then
        let '(neg, r') :=
          match r with
          | String sg r'' =>
              if Ascii.eqb sg "-" then (true, r'')
              else if Ascii.eqb sg "+" then (false, r'')
              else (false, r)
          | EmptyString => (false, r)
          end in
        let '(e, len, _) := span_digits 0 0 r' in
        match len with
        | O => 0%Z
        | S _ => if neg then (- Z.of_N e)%Z else Z.of_N e
        end
      else 0%Z
  | EmptyString => 0%Z
  end.

(** The global [parseFloat]: leading white space is skipped, then the longest
    prefix that is a StrDecimalLiteral is read; NaN when there is none. *)
Definition parseFloat (s : string) : jsnum :=
  let t := trimStart s in
  let '(neg, u) :=
    match t with
    | String sg r =>
        if Ascii.eqb sg "-" then (true, r)
        else if Ascii.eqb sg "+" then (false, r)
        else (false, t)
    | EmptyString => (false, t)
    end in
  if startsWith u "Infinity" then Infinity neg
  else
    let '(ip, ilen, r1) := span_digits 0 0 u in
    match r1 with
    | String dot r2 =>
        if Ascii.eqb dot "." then
          let '(m, flen, r3) := span_digits ip 0 r2 in
          match ilen, flen with
          | O, O => NaN
          | _, _ => Finite neg m (exponent_part r3 - Z.of_nat flen)
          end
        else
          match ilen with
          | O => NaN
          | S _ => Finite neg ip (exponent_part r1)
          end
    | EmptyString =>
        match ilen with
        | O => NaN
        | S _ => Finite neg ip 0
        end
    end.

(** *** Values of attribute bags and table cells

    The primitive values a decoded attribute can be: a string, a number, a
    boolean, [null], or nothing at all ([undefined]). *)
Inductive jsval : Type :=
| VUndefined
| VNull
| VBool (b : bool)
| VNum (n : jsnum)
| VStr (s : string).

(** ToBoolean *)
Definition truthy (v : jsval) : bool :=
  match v with
  | VUndefined | VNull => false
  | VBool b => b
  | VNum NaN => false
  | VNum (Infinity _) => true
  | VNum (Finite _ d _) => negb (d =? 0)%N
  | VStr s => negb (String.eqb s "")
  end.

(** Number::toString for a finite value whose decimal has the digits
    [digits] without trailing zero: [k] digits, the decimal point after the
    [n]-th. *)
Fixpoint strip_zeros (fuel : nat) (d : N) (e : Z) : N * Z :=
  match fuel with
  | O => (d, e)
  | S fuel' =>
      if (d mod 10 =? 0)%N then strip_zeros fuel' (d / 10)%N (e + 1)%Z else (d, e)
  end.

Fixpoint zeros (n : nat) : string :=
  match n with
  | O => ""
  | S n' => String "0" (zeros n')
  end.

Fixpoint take_chars (n : nat) (s : string) : string :=
  match n, s with
  | O, _ => ""
  | S _, EmptyString => ""
  | S n', String a s' => String a (take_chars n' s')
  end.

Definition decimal_string (d : N) (e : Z) : string :=
  let '(d, e) := strip_zeros (N.to_nat (N.size d)) d e in
  let s := pretty d in
  let k := Z.of_nat (String.length s) in
  let n := (k + e)%Z in
  if ((k <=? n) && (n <=? 21))%Z then s +:+ zeros (Z.to_nat (n - k))
  else if ((0 <? n) && (n <=? 21))%Z then
    take_chars (Z.to_nat n) s +:+ "." +:+ drop_chars (Z.to_nat n) s
  else if ((-6 <? n) && (n <=? 0))%Z then "0." +:+ zeros (Z.to_nat (- n)) +:+ s
  else
    let mantissa :=
      if (k =? 1)%Z then s else take_chars 1 s +:+ "." +:+ drop_chars 1 s in
    mantissa +:+ "e" +:+ (if (0 <=? n - 1)%Z then "+" else "-")
             +:+ pretty (Z.abs (n - 1)).

(** Number::toString, for the numbers whose shortest decimal is the one they
    are kept as. *)
Definition NumberToString_decimal (x : jsnum) : string :=
  match x with
  | NaN => "NaN"
  | Infinity false => "Infinity"
  | Infinity true => "-Infinity"
  | Finite neg d e =>
      if (d =? 0)%N then "0"
      else (if neg then "-" else "") +:+ decimal_string d e
  end.

End JS.

Import JS.

(** ** The data model of the worker *)

(** ['river' | 'canal' | 'weir'] *)
Inductive FeatureType : Type := river | canal | weir.

(** The string a category stands for where it is concatenated into an id. *)
Definition type_string (t : FeatureType) : string :=
  match t with
  | river => "river"
  | canal => "canal"
  | weir => "weir"
  end.

(** A cell of a row that [Papa.parse] returns with [header: true] and
    [dynamicTyping: false]: a string, or [null]. A field the row does not have
    is a key the row's map does not have. *)
Inductive Cell : Type :=
| CNull
| CStr (s : string).

Definition cell_value (c : Cell) : jsval :=
  match c with
  | CNull => VNull
  | CStr s => VStr s
  end.

(** [parseResult] of [Papa.parse] *)
Record ParseResult : Type := {
  data : list (gmap string Cell);
  errors : list string;
}.

Module GeoJSON.

Definition Position : Type := list jsnum.

(** The geometry kinds the worker does not accept. *)
Inductive OtherKind : Type :=
| Polygon | MultiPoint | MultiPolygon | GeometryCollection.

Inductive Geometry : Type :=
| Point (coordinates : Position)
| LineString (coordinates : list Position)
| MultiLineString (coordinates : list (list Position))
| Other (kind : OtherKind).

(** [geometry.type] *)
Definition type (g : Geometry) : string :=
  match g with
  | Point _ => "Point"
  | LineString _ => "LineString"
  | MultiLineString _ => "MultiLineString"
  | Other Polygon => "Polygon"
  | Other MultiPoint => "MultiPoint"
  | Other MultiPolygon => "MultiPolygon"
  | Other GeometryCollection => "GeometryCollection"
  end.

(** [GeoJSON.Feature<GeoJSON.Geometry, Record<string, unknown> | null>];
    the geometry of a feature may be [null] as well. *)
Record Feature : Type := {
  geometry : option Geometry;
  properties : option (gmap string jsval);
}.

End GeoJSON.

Module FlowFeature.

Record Properties : Type := {
  name : string;
  type : FeatureType;
  flows : gmap string jsnum;
}.

(** [interface FlowFeature] *)
Record t : Type := {
  id : string;
  geometry : GeoJSON.Geometry;
  properties : Properties;
}.

End FlowFeature.

(** One entry of [shapefileConfigs]. *)
Record ShapefileConfig : Type := {
  path : string;
  typeOverride : option FeatureType;
}.

(** What the worker writes to the console, one constructor per call site.
    The caught error that [console.error] gets as its second argument at a
    failed shapefile is not recorded. *)
Inductive Diag : Type :=
| LogStarting
| LogCsvParsed (rows : nat)
| WarnCsvErrors (errs : list string)
| WarnSkippingRow (row : gmap string Cell)
| LogFlowMapCreated (entries : nat)
| LogProcessingShapefile (path : string)
| LogFetched (path : string)
| LogShapefileRead (path : string) (features : nat)
| WarnMissingMapID (path : string) (properties : option (gmap string jsval))
| WarnNoFlowData (mapId : string) (path : string)
| WarnNoCoordinates (mapId : string)
| WarnUnsupportedGeometry (mapId : string) (kind : option string)
| ErrorProcessingShapefile (path : string)
| LogAllProcessed (total : nat)
| ErrorFatal (error : string).

(** A value or a thrown error (the message of the [Error]). *)
Inductive Result (A : Type) : Type :=
| Ok (a : A)
| Throw (error : string).
Arguments Ok {A} a.
Arguments Throw {A} error.

(** What [fetch] gives for a URL: a rejection, or a response whose body can
    be read or fails to be read. *)
Inductive Body : Type :=
| BodyError (error : string)
| BodyData (bytes : string).

Inductive Fetched : Type :=
| NetworkError (error : string)
| Response (ok : bool) (statusText : string) (body : Body).

(** The surroundings of a run: the network, and the two decoders the worker
    imports ([Papa.parse] with the worker's options, [shapefile.read]). For
    the time of a run a URL gives one thing. *)
Record World : Type := {
  fetch : string -> Fetched;
  Papa_parse : string -> ParseResult;
  shapefile_read : string -> string -> Result (list GeoJSON.Feature);
}.

(** The two things a run writes to: [allFeatures] and the console. *)
Record Store : Type := {
  allFeatures : list FlowFeature.t;
  console : list Diag;
}.

Definition log (d : Diag) (st : Store) : Store :=
  {| allFeatures := allFeatures st; console := console st ++ [d] |}.

Definition push (f : FlowFeature.t) (st : Store) : Store :=
  {| allFeatures := allFeatures st ++ [f]; console := console st |}.

Definition mapIdPropertyKeys : list string :=
  ["MAPID"; "MapID"; "mapid"; "SiteID"; "SITEID"].

Definition namePropertyKeys : list string :=
  ["NAME"; "Name"; "SiteName"; "GNIS_Name"].

(** [obj[key]]: [undefined] when the key is absent. *)
Definition get (obj : gmap string jsval) (key : string) : jsval :=
  default VUndefined (obj !! key).

(** [for (const key of keys) if (properties && properties[key]) { ...; break }]:
    the value at the first key whose value is truthy. *)
Fixpoint probe (keys : list string) (properties : option (gmap string jsval))
  : option jsval :=
  match keys with
  | [] => None
  | key :: keys' =>
      match properties with
      | Some obj => if truthy (get obj key) then Some (get obj key)
                    else probe keys' properties
      | None => probe keys' properties
      end
  end.

Section Worker.

(** Number::toString of the host; the worker reaches it through
    [String(...)] on a numeric attribute. *)
Variable NumberToString : jsnum -> string.

(** [String(v)] *)
Definition ToString (v : jsval) : string :=
  match v with
  | VUndefined => "undefined"
  | VNull => "null"
  | VBool true => "true"
  | VBool false => "false"
  | VNum n => NumberToString n
  | VStr s => s
  end.

Definition getFeatureType (filePath : string) (properties : gmap string jsval)
  : FeatureType :=
  let lowerFilePath := toLowerCase filePath in
  if includes lowerFilePath "point" || includes lowerFilePath "weir" then
    if truthy (get properties "TYPE")
       && String.eqb (toLowerCase (ToString (get properties "TYPE"))) "weir"
    then weir
    else weir
  else if includes lowerFilePath "canal" then canal
  else if includes lowerFilePath "river" then river
  else canal.

(** Lines 83-84: the number stored for one cell. *)
Definition cell_flow (cell : Cell) : jsnum :=
  let flowVal := parseFloat (ToString (cell_value cell)) in
  if isNaN flowVal then zero else flowVal.

(** Lines 80-86: the yearly flows of one row. *)
Definition row_flows (row : gmap string Cell) : gmap string jsnum :=
  map_fold (fun key cell flows =>
              if is_year key then <[key := cell_flow cell]> flows
              else flows)
           ∅ row.

(** Lines 75-88: the callback of [parseResult.data.forEach]. *)
Definition process_row (st : gmap string (gmap string jsnum) * list Diag)
    (row : gmap string Cell) : gmap string (gmap string jsnum) * list Diag :=
  let '(flowDataMap, out) := st in
  match row !! "MapID" with
  | Some (CStr MapID) =>
      if String.eqb MapID "" then (flowDataMap, out ++ [WarnSkippingRow row])
      else (<[trim MapID := row_flows row]> flowDataMap, out)
  | _ => (flowDataMap, out ++ [WarnSkippingRow row])
  end.

(** Lines 144-173: the geometry that is pushed, or the warning. *)
Definition normalize (mapId : string) (g : option GeoJSON.Geometry)
  : GeoJSON.Geometry + Diag :=
  match g with
  | Some (GeoJSON.Point c) => inl (GeoJSON.Point c)
  | Some (GeoJSON.LineString cs) => inl (GeoJSON.LineString cs)
  | Some (GeoJSON.MultiLineString (first :: _)) => inl (GeoJSON.LineString first)
  | Some (GeoJSON.MultiLineString []) => inr (WarnNoCoordinates mapId)
  | Some (GeoJSON.Other k) =>
      inr (WarnUnsupportedGeometry mapId (Some (GeoJSON.type (GeoJSON.Other k))))
  | None => inr (WarnUnsupportedGeometry mapId None)
  end.

(** Lines 110-117: [mapId] after the loop over the alias keys. *)
Definition mapId_of (feature : GeoJSON.Feature) : option string :=
  (fun v => trim (ToString v)) <$> probe mapIdPropertyKeys (GeoJSON.properties feature).

(** Lines 109-174: the callback of [geojson.features.forEach]. *)
Definition process_feature (path : string) (typeOverride : option FeatureType)
    (flowDataMap : gmap string (gmap string jsnum))
    (st : Store) (feature : GeoJSON.Feature) : Store :=
  match mapId_of feature with
  | None => log (WarnMissingMapID path (GeoJSON.properties feature)) st
  | Some mapId =>
      if String.eqb mapId "" then
        log (WarnMissingMapID path (GeoJSON.properties feature)) st
      else
        let sectionFlows := flowDataMap !! mapId in
        let st :=
          match sectionFlows with
          | None => log (WarnNoFlowData mapId path) st
          | Some _ => st
          end in
        let name :=
          match probe namePropertyKeys (GeoJSON.properties feature) with
          | Some v => ToString v
          | None => "Unknown"
          end in
        let featureType :=
          match typeOverride with
          | Some t => t
          | None => getFeatureType path (default ∅ (GeoJSON.properties feature))
          end in
        match normalize mapId (GeoJSON.geometry feature) with
        | inl geometry =>
            push {| FlowFeature.id := mapId +:+ "_" +:+ type_string featureType;
                    FlowFeature.geometry := geometry;
                    FlowFeature.properties :=
                      {| FlowFeature.name := name;
                         FlowFeature.type := featureType;
                         FlowFeature.flows := default ∅ sectionFlows |} |} st
        | inr warning => log warning st
        end
  end.

(** Line 60-62: the tabular source. *)
Definition fetch_csv (w : World) (csvFilePath : string) : Result string :=
  match fetch w csvFilePath with
  | NetworkError e => Throw e
  | Response ok statusText body =>
      if negb ok then Throw ("Failed to fetch CSV: " +:+ statusText)
      else match body with
           | BodyError e => Throw e
           | BodyData csvText => Ok csvText
           end
  end.

(** Lines 98-99: one of the two files of a shapefile. *)
Definition fetch_buffer (w : World) (what url : string) : Result string :=
  match fetch w url with
  | NetworkError e => Throw e
  | Response ok statusText body =>
      if negb ok then Throw (what +:+ " fetch failed: " +:+ statusText)
      else match body with
           | BodyError e => Throw e
           | BodyData buffer => Ok buffer
           end
  end.

(** [Promise.all] of two promises. Which error it rejects with when both
    fail depends on which failed first; the error is only ever caught. *)
Definition Promise_all {A B : Type} (a : Result A) (b : Result B) : Result (A * B) :=
  match a, b with
  | Ok x, Ok y => Ok (x, y)
  | Throw e, _ => Throw e
  | Ok _, Throw e => Throw e
  end.

(** Lines 94-179: the body of the loop over [shapefileConfigs]. *)
Definition process_source (w : World)
    (flowDataMap : gmap string (gmap string jsnum))
    (st : Store) (cfg : ShapefileConfig) : Store :=
  let st := log (LogProcessingShapefile (path cfg)) st in
  match Promise_all (fetch_buffer w "SHP" (path cfg))
                    (fetch_buffer w "DBF" (replace (path cfg) ".shp" ".dbf")) with
  | Throw _ => log (ErrorProcessingShapefile (path cfg)) st
  | Ok (shpBuffer, dbfBuffer) =>
      let st := log (LogFetched (path cfg)) st in
      match shapefile_read w shpBuffer dbfBuffer with
      | Throw _ => log (ErrorProcessingShapefile (path cfg)) st
      | Ok features =>
          let st := log (LogShapefileRead (path cfg) (length features)) st in
          foldl (process_feature (path cfg) (typeOverride cfg) flowDataMap) st features
      end
  end.

(** Lines 74-89: the flow table of a parse result and what it logs. *)
Definition build_flowDataMap (parseResult : ParseResult) (out : list Diag)
  : gmap string (gmap string jsnum) * list Diag :=
  foldl process_row (∅, out) (data parseResult).

(** The outcome of the promise and the console of the run. *)
Definition fetchAndProcessDataForAllSources (w : World) (csvFilePath : string)
    (shapefileConfigs : list ShapefileConfig)
  : Result (list FlowFeature.t) * list Diag :=
  let out := [LogStarting] in
  match fetch_csv w csvFilePath with
  | Throw error => (Throw error, out ++ [ErrorFatal error])
  | Ok csvText =>
      let parseResult := Papa_parse w csvText in
      let out := out ++ [LogCsvParsed (length (data parseResult))] in
      let out :=
        match errors parseResult with
        | [] => out
        | _ :: _ => out ++ [WarnCsvErrors (errors parseResult)]
        end in
      let '(flowDataMap, out) := build_flowDataMap parseResult out in
      let out := out ++ [LogFlowMapCreated (size flowDataMap)] in
      let st := foldl (process_source w flowDataMap)
                      {| allFeatures := []; console := out |} shapefileConfigs in
      (Ok (allFeatures st),
       console st ++ [LogAllProcessed (length (allFeatures st))])
  end.

(** *** Views of a run, for stating its properties *)

Definition empty_store : Store := {| allFeatures := []; console := [] |}.

(** Lines 97-103: the decoded features of a source, or the error that the
    [catch] of line 176 receives. *)
Definition load_source (w : World) (cfg : ShapefileConfig)
  : Result (list GeoJSON.Feature) :=
  match Promise_all (fetch_buffer w "SHP" (path cfg))
                    (fetch_buffer w "DBF" (replace (path cfg) ".shp" ".dbf")) with
  | Throw e => Throw e
  | Ok (shpBuffer, dbfBuffer) => shapefile_read w shpBuffer dbfBuffer
  end.

(** What one feature, one source, adds to an empty [allFeatures]. *)
Definition feature_output (path : string) (typeOverride : option FeatureType)
    (flowDataMap : gmap string (gmap string jsnum)) (feature : GeoJSON.Feature)
  : list FlowFeature.t :=
  allFeatures (process_feature path typeOverride flowDataMap empty_store feature).

Definition source_output (w : World)
    (flowDataMap : gmap string (gmap string jsnum)) (cfg : ShapefileConfig)
  : list FlowFeature.t :=
  allFeatures (process_source w flowDataMap empty_store cfg).

(** What one feature, one source, adds to an empty console. *)
Definition feature_diags (path : string) (typeOverride : option FeatureType)
    (flowDataMap : gmap string (gmap string jsnum)) (feature : GeoJSON.Feature)
  : list Diag :=
  console (process_feature path typeOverride flowDataMap empty_store feature).

Definition source_diags (w : World)
    (flowDataMap : gmap string (gmap string jsnum)) (cfg : ShapefileConfig)
  : list Diag :=
  console (process_source w flowDataMap empty_store cfg).

(** [flowDataMap] as line 89 finds it. *)
Definition flow_table (w : World) (csvText : string)
  : gmap string (gmap string jsnum) :=
  (build_flowDataMap (Papa_parse w csvText) []).1.

End Worker.

(** ** The flow-data hook: the module state around the worker *)

Module UseFlowData.

(** How a promise returned by [queryFn] settles. *)
Inductive Outcome : Type :=
| Resolved (data : list FlowFeature.t)
| Rejected (message : string).

(** [event.data] of a message from the worker. *)
Inductive Message : Type :=
| dataLoaded (payload : list FlowFeature.t)
| dataError (payload : string)
| otherMessage.

Inductive WorkerStatus : Type :=
| NoWorker
| Running
| Terminated.

(** The module-level variables, and what the event loop holds for the
    module: how often ['loadData'] was posted, the worker, the promises
    whose [checkData] is scheduled by [setTimeout], and the promises
    settled so far. [subscribers] is never added to and is left out. *)
Record Shim : Type := {
  workerDataCache : option (list FlowFeature.t);
  workerErrorCache : option string;
  isLoadingData : bool;
  posted : nat;
  worker : WorkerStatus;
  waiting : list nat;
  settled : list (nat * Outcome);
}.

(** Truthiness of [workerErrorCache]: neither [null] nor the empty string. *)
Definition error_set (s : Shim) : bool :=
  match workerErrorCache s with
  | Some e => negb (String.eqb e "")
  | None => false
  end.

(** Truthiness of [workerDataCache]: an array is truthy, [null] is not. *)
Definition data_set (s : Shim) : bool :=
  match workerDataCache s with
  | Some _ => true
  | None => false
  end.

(** Lines 6-46: what evaluating the module leaves behind. *)
Definition init (hasWorker : bool) : Shim :=
  if hasWorker then
    {| workerDataCache := None; workerErrorCache := None;
       isLoadingData := true; posted := 1; worker := Running;
       waiting := []; settled := [] |}
  else
    {| workerDataCache := None;
       workerErrorCache := Some "Web Workers are not supported.";
       isLoadingData := false; posted := 0; worker := NoWorker;
       waiting := []; settled := [] |}.

(** Lines 17-30: [worker.onmessage] *)
Definition onmessage (m : Message) (s : Shim) : Shim :=
  let '(d, e) :=
    match m with
    | dataLoaded payload => (Some payload, None)
    | dataError payload => (None, Some payload)
    | otherMessage => (workerDataCache s, workerErrorCache s)
    end in
  {| workerDataCache := d; workerErrorCache := e;
     isLoadingData := false; posted := posted s; worker := Terminated;
     waiting := waiting s; settled := settled s |}.

(** Lines 32-39: [worker.onerror] *)
Definition onerror (message : string) (s : Shim) : Shim :=
  {| workerDataCache := None; workerErrorCache := Some message;
     isLoadingData := false; posted := posted s; worker := Terminated;
     waiting := waiting s; settled := settled s |}.

Definition settle (p : nat) (o : Outcome) (s : Shim) : Shim :=
  {| workerDataCache := workerDataCache s; workerErrorCache := workerErrorCache s;
     isLoadingData := isLoadingData s; posted := posted s; worker := worker s;
     waiting := waiting s; settled := settled s ++ [(p, o)] |}.

Definition setTimeout (p : nat) (s : Shim) : Shim :=
  {| workerDataCache := workerDataCache s; workerErrorCache := workerErrorCache s;
     isLoadingData := isLoadingData s; posted := posted s; worker := worker s;
     waiting := waiting s ++ [p]; settled := settled s |}.

Definition clearTimeout (p : nat) (s : Shim) : Shim :=
  {| workerDataCache := workerDataCache s; workerErrorCache := workerErrorCache s;
     isLoadingData := isLoadingData s; posted := posted s; worker := worker s;
     waiting := filter (fun q => q ≠ p) (waiting s); settled := settled s |}.

(** Lines 56-70: [checkData] of the promise [p]. *)
Definition checkData (p : nat) (s : Shim) : Shim :=
  if error_set s then settle p (Rejected (default "" (workerErrorCache s))) s
  else if data_set s then settle p (Resolved (default [] (workerDataCache s))) s
  else if negb (isLoadingData s) && negb (data_set s) && negb (error_set s)
  then settle p (Rejected "Failed to load data from worker.") s
  else setTimeout p s.

(** Lines 52-73: [queryFn], returning the promise [p]. *)
Definition queryFn (p : nat) (s : Shim) : Shim :=
  if error_set s then settle p (Rejected (default "" (workerErrorCache s))) s
  else if data_set s then settle p (Resolved (default [] (workerDataCache s))) s
  else checkData p s.

(** What the event loop can run next. *)
Inductive Event : Type :=
| EvMessage (m : Message)
| EvError (message : string)
| EvQuery (p : nat)
| EvTimeout (p : nat).

Definition known (p : nat) (s : Shim) : Prop :=
  p ∈ waiting s ∨ p ∈ (settled s).*1.

Inductive step : Shim -> Event -> Shim -> Prop :=
| step_message m s :
    worker s = Running -> step s (EvMessage m) (onmessage m s)
| step_error message s :
    worker s = Running -> step s (EvError message) (onerror message s)
| step_query p s :
    ¬ known p s -> step s (EvQuery p) (queryFn p s)
| step_timeout p s :
    p ∈ waiting s -> step s (EvTimeout p) (checkData p (clearTimeout p s)).

(** The states a trace of events leads to. *)
Inductive run : Shim -> list Event -> Shim -> Prop :=
| run_nil s : run s [] s
| run_cons s ev s' evs s'' :
    step s ev s' -> run s' evs s'' -> run s (ev :: evs) s''.

(** The same, as a function: [None] when an event cannot happen. *)
Definition exec (s : Shim) (ev : Event) : option Shim :=
  match ev with
  | EvMessage m =>
      match worker s with Running => Some (onmessage m s) | _ => None end
  | EvError message =>
      match worker s with Running => Some (onerror message s) | _ => None end
  | EvQuery p =>
      if decide (p ∈ waiting s) then None
      else if decide (p ∈ (settled s).*1) then None
      else Some (queryFn p s)
  | EvTimeout p =>
      if decide (p ∈ waiting s) then Some (checkData p (clearTimeout p s))
      else None
  end.

Fixpoint exec_all (s : Shim) (evs : list Event) : option Shim :=
  match evs with
  | [] => Some s
  | ev :: evs' =>
      match exec s ev with
      | Some s' => exec_all s' evs'
      | None => None
      end
  end.

(** The messages and errors of the worker in a trace. *)
Definition from_worker (ev : Event) : bool :=
  match ev with
  | EvMessage _ | EvError _ => true
  | EvQuery _ | EvTimeout _ => false
  end.

(** The outcome every promise gets in a state the worker has left. *)
Definition outcome (s : Shim) : Outcome :=
  if error_set s then Rejected (default "" (workerErrorCache s))
  else if data_set s then Resolved (default [] (workerDataCache s))
  else Rejected "Failed to load data from worker.".

(** The promises the module knows: those that wait and those settled. *)
Definition promises (s : Shim) : list nat := waiting s ++ (settled s).*1.

(** While the worker runs nothing is cached and no promise is settled;
    once it has answered, or where there is none, the module is no longer
    loading and every settled promise got the outcome of the caches. *)
Definition inv (hasWorker : bool) (s : Shim) : Prop :=
  posted s = (if hasWorker then 1 else 0)
  /\ match worker s with
     | Running =>
         isLoadingData s = true /\ workerDataCache s = None
         /\ workerErrorCache s = None /\ settled s = []
     | NoWorker | Terminated =>
         isLoadingData s = false
         /\ forall p o, (p, o) ∈ settled s -> o = outcome s
     end.

End UseFlowData.

(** ** The entry points of the worker *)

(** Lines 191-196 *)
Definition csvFilePath : string := "/0_KERN_RIVER_MASTER_DATA_rev6.csv".

Definition shapefilePathsConfig : list ShapefileConfig :=
  [ {| path := "/Canals_KernRiver_Merged_rev/Canals_KernRiver_Merged_rev.shp";
       typeOverride := None |};
    {| path := "/NHDStreamRiverKernRiver_rev/NHDStreamRiverKernRiver_rev.shp";
       typeOverride := Some river |};
    {| path := "/Points_Metro_Bak_Canals_Rev/Points_Metro_Bak_Canals_Rev.shp";
       typeOverride := Some weir |} ].

(** Lines 190-198 *)
Definition loadAndProcessData (NumberToString : jsnum -> string) (w : World)
  : Result (list FlowFeature.t) * list Diag :=
  fetchAndProcessDataForAllSources NumberToString w csvFilePath shapefilePathsConfig.

(** Lines 204-213: [self.onmessage] on an event with the given [data]; the
    message it posts back, if it posts one. *)
Definition self_onmessage (NumberToString : jsnum -> string) (w : World)
    (data : jsval) : option UseFlowData.Message :=
  match data with
  | VStr s =>
      if String.eqb s "loadData" then
        match (loadAndProcessData NumberToString w).1 with
        | Ok processedData => Some (UseFlowData.dataLoaded processedData)
        | Throw error => Some (UseFlowData.dataError error)
        end
      else None
  | _ => None
  end.

(** ** More views of a run *)

(** Lines 76 and 87: the key a row is stored under, when it is stored. *)
Definition row_key (row : gmap string Cell) : option string :=
  match row !! "MapID" with
  | Some (CStr MapID) => if String.eqb MapID "" then None else Some (trim MapID)
  | _ => None
  end.

(** Line 141 for a feature without attributes: the category of a source. *)
Definition source_category (NumberToString : jsnum -> string)
    (cfg : ShapefileConfig) : FeatureType :=
  match typeOverride cfg with
  | Some t => t
  | None => getFeatureType NumberToString (path cfg) ∅
  end.

(** The number of features the sources decode to. *)
Definition decoded_count (w : World) (cfgs : list ShapefileConfig) : nat :=
  sum_list ((fun cfg => match load_source w cfg with
                        | Ok decoded => length decoded
                        | Throw _ => 0
                        end) <$> cfgs).

(** A string without a full stop. *)
Fixpoint no_dot (s : string) : bool :=
  match s with
  | EmptyString => true
  | String a s' => negb (Ascii.eqb a ".") && no_dot s'
  end.

(** ** Concrete surroundings for the examples *)

Definition csvUrl : string := "/table.csv".

(** A world whose table has the given rows and whose shapefiles decode to the
    given features; a shapefile that is not listed cannot be fetched. The
    bytes of a file are its URL. *)
Definition world_of (rows : list (gmap string Cell))
    (sources : list (string * Result (list GeoJSON.Feature))) : World :=
  {| fetch := fun url =>
       if String.eqb url csvUrl then Response true "OK" (BodyData "table")
       else if existsb (fun src => String.eqb url src.1
                                   || String.eqb url (replace src.1 ".shp" ".dbf"))
                       sources
       then Response true "OK" (BodyData url)
       else NetworkError "Failed to fetch";
     Papa_parse := fun _ => {| data := rows; errors := [] |};
     shapefile_read := fun shp _ =>
       match find (fun src => String.eqb shp src.1) sources with
       | Some src => src.2
       | None => Throw "Not a shapefile"
       end |}.

Definition num (z : Z) : jsnum := Finite (z <? 0)%Z (Z.abs_N z) 0.

Definition line (mapId : string) (cs : list GeoJSON.Position) : GeoJSON.Feature :=
  {| GeoJSON.geometry := Some (GeoJSON.LineString cs);
     GeoJSON.properties := Some {[ "MapID" := VStr mapId ]} |}.

Definition segment : list GeoJSON.Position := [[num 0; num 0]; [num 1; num 1]].

Definition canals : ShapefileConfig :=
  {| path := "/fake/canals.shp"; typeOverride := None |}.
Definition rivers : ShapefileConfig :=
  {| path := "/fake/rivers.shp"; typeOverride := Some river |}.
Definition weirs : ShapefileConfig :=
  {| path := "/fake/weirs.shp"; typeOverride := Some weir |}.

Definition row_C1 : gmap string Cell :=
  {[ "MapID" := CStr "C1"; "1979" := CStr "10"; "1980" := CStr "";
     "Notes" := CStr "n/a" ]}.

Definition row_blank : gmap string Cell :=
  {[ "MapID" := CStr "  "; "1979" := CStr "7" ]}.

Definition row_inf : gmap string Cell :=
  {[ "MapID" := CStr "C1"; "1979" := CStr "Infinity" ]}.

Definition polygon_Poly1 : GeoJSON.Feature :=
  {| GeoJSON.geometry := Some (GeoJSON.Other GeoJSON.Polygon);
     GeoJSON.properties := Some {[ "MapID" := VStr "Poly1" ]} |}.



Definition world_inf : World :=
  world_of [row_inf] [("/fake/canals.shp", Ok [line "C1" segment])].

Definition world_poly : World :=
  world_of [] [("/fake/canals.shp", Ok [polygon_Poly1])].

(** The river shapefile cannot be fetched. *)
Definition world_partial : World :=
  world_of [row_C1]
           [("/fake/canals.shp", Ok [line "C1" segment]);
            ("/fake/weirs.shp", Ok [line "W1" segment])].

(** As [world_partial], with one more file on the network that no
    configured source names. *)
Definition world_partial' : World :=
  {| fetch := fun url =>
       if String.eqb url "/fake/unrelated.shp" then Response true "OK" (BodyData "x")
       else fetch world_partial url;
     Papa_parse := Papa_parse world_partial;
     shapefile_read := shapefile_read world_partial |}.

(** Two requests while the worker runs, its answer, and the two polls. *)
Definition two_requests : list UseFlowData.Event :=
  [UseFlowData.EvQuery 1; UseFlowData.EvQuery 2;
   UseFlowData.EvMessage (UseFlowData.dataLoaded []);
   UseFlowData.EvTimeout 1; UseFlowData.EvTimeout 2].

Definition after_two_requests : UseFlowData.Shim :=
  {| UseFlowData.workerDataCache := Some [];
     UseFlowData.workerErrorCache := None;
     UseFlowData.isLoadingData := false;
     UseFlowData.posted := 1;
     UseFlowData.worker := UseFlowData.Terminated;
     UseFlowData.waiting := [];
     UseFlowData.settled :=
       [(1, UseFlowData.Resolved []); (2, UseFlowData.Resolved [])] |}.

(** A world in which the table of [loadAndProcessData] can be fetched and no
    shapefile can. *)
Definition world_table_only : World :=
  {| fetch := fun url =>
       if String.eqb url csvFilePath then Response true "OK" (BodyData "table")
       else NetworkError "Failed to fetch";
     Papa_parse := fun _ => {| data := [row_C1]; errors := [] |};
     shapefile_read := fun _ _ => Throw "Not a shapefile" |}.

Definition one_request_loading : UseFlowData.Shim :=
  {| UseFlowData.workerDataCache := None;
     UseFlowData.workerErrorCache := None;
     UseFlowData.isLoadingData := true;
     UseFlowData.posted := 1;
     UseFlowData.worker := UseFlowData.Running;
     UseFlowData.waiting := [1];
     UseFlowData.settled := [] |}.

Definition one_request_served : UseFlowData.Shim :=
  {| UseFlowData.workerDataCache := Some [];
     UseFlowData.workerErrorCache := None;
     UseFlowData.isLoadingData := false;
     UseFlowData.posted := 1;
     UseFlowData.worker := UseFlowData.Terminated;
     UseFlowData.waiting := [];
     UseFlowData.settled := [(1, UseFlowData.Resolved [])] |}.

Definition no_worker_two_requests : UseFlowData.Shim :=
  {| UseFlowData.workerDataCache := None;
     UseFlowData.workerErrorCache := Some "Web Workers are not supported.";
     UseFlowData.isLoadingData := false;
     UseFlowData.posted := 0;
     UseFlowData.worker := UseFlowData.NoWorker;
     UseFlowData.waiting := [];
     UseFlowData.settled :=
       [(1, UseFlowData.Rejected "Web Workers are not supported.");
        (2, UseFlowData.Rejected "Web Workers are not supported.")] |}.

(** What the runs of the examples return. *)
Definition feature_C1 : FlowFeature.t :=
  {| FlowFeature.id := "C1_canal";
     FlowFeature.geometry := GeoJSON.LineString segment;
     FlowFeature.properties :=
       {| FlowFeature.name := "Unknown";
          FlowFeature.type := canal;
          FlowFeature.flows := {[ "1979" := Finite false 10 0; "1980" := zero ]} |} |}.

Definition feature_W1 : FlowFeature.t :=
  {| FlowFeature.id := "W1_weir";
     FlowFeature.geometry := GeoJSON.LineString segment;
     FlowFeature.properties :=
       {| FlowFeature.name := "Unknown";
          FlowFeature.type := weir;
          FlowFeature.flows := ∅ |} |}.

Definition feature_C1_inf : FlowFeature.t :=
  {| FlowFeature.id := "C1_canal";
     FlowFeature.geometry := GeoJSON.LineString segment;
     FlowFeature.properties :=
       {| FlowFeature.name := "Unknown";
          FlowFeature.type := canal;
          FlowFeature.flows := {[ "1979" := Infinity false ]} |} |}.

(** * Properties *)

(** ** The built-ins on examples *)

Example parseFloat_10 : parseFloat "10" = Finite false 10 0.
Proof. reflexivity. Qed.
Example parseFloat_frac : parseFloat " -12.50e3x" = Finite true 1250 1.
Proof. reflexivity. Qed.
Example parseFloat_dot : parseFloat "." = NaN.
Proof. reflexivity. Qed.
Example parseFloat_dot5 : parseFloat ".5e" = Finite false 5 (-1).
Proof. reflexivity. Qed.
Example parseFloat_abc : parseFloat "abc" = NaN.
Proof. reflexivity. Qed.
Example trim_ex : trim "  a b  " = "a b".
Proof. reflexivity. Qed.
Example replace_ex : replace "/fake/canals.shp" ".shp" ".dbf" = "/fake/canals.dbf".
Proof. reflexivity. Qed.
Example includes_ex : includes (toLowerCase "/p/Points_Metro.shp") "point" = true.
Proof. reflexivity. Qed.
Example is_year_ex :
  is_year "1979" = true /\ is_year "19790" = false /\ is_year "MapID" = false.
Proof. repeat split; reflexivity. Qed.
Example NumberToString_int : NumberToString_decimal (Finite false 1250 1) = "12500".
Proof. reflexivity. Qed.
Example NumberToString_frac : NumberToString_decimal (Finite true 125 (-1)) = "-12.5".
Proof. reflexivity. Qed.
Example NumberToString_small : NumberToString_decimal (Finite false 15 (-8)) = "1.5e-7".
Proof. reflexivity. Qed.
Example NumberToString_large : NumberToString_decimal (Finite false 1 21) = "1e+21".
Proof. reflexivity. Qed.

(** ** Strings *)

Lemma trimStart_all_white (s : string) : all_white s = true -> trimStart s = "".
Proof.
  induction s as [|a s IH]; simpl; [done|].
  intros [Ha Hs]%andb_prop. rewrite Ha. auto.
Qed.

Lemma trim_all_white (s : string) : all_white s = true -> trim s = "".
Proof. intros H. unfold trim. by rewrite trimStart_all_white. Qed.

Lemma string_app_nil (s : string) : "" +:+ s = s.
Proof. reflexivity. Qed.

Lemma string_app_cons (a : ascii) (s t : string) :
  String a s +:+ t = String a (s +:+ t).
Proof. reflexivity. Qed.





(** ** The flow table *)

Section TableFacts.

Variable NumberToString : jsnum -> string.

Lemma row_flows_lookup (row : gmap string Cell) (key : string) :
  row_flows NumberToString row !! key =
    if is_year key then cell_flow NumberToString <$> row !! key else None.
Proof.
  unfold row_flows.
  apply (map_fold_weak_ind
           (fun flows (m : gmap string Cell) =>
              flows !! key =
                if is_year key then cell_flow NumberToString <$> m !! key else None)).
  - rewrite !lookup_empty. by destruct (is_year key).
  - intros i x m r Hi IH.
    destruct (decide (i = key)) as [->|Hne].
    + destruct (is_year key).
      * by rewrite !lookup_insert_eq.
      * rewrite IH. done.
    + rewrite (lookup_insert_ne m) by done.
      destruct (is_year i); [rewrite lookup_insert_ne by done|]; exact IH.
Qed.

Lemma cell_flow_not_NaN (cell : Cell) : isNaN (cell_flow NumberToString cell) = false.
Proof.
  unfold cell_flow.
  destruct (parseFloat (ToString NumberToString (cell_value cell))); done.
Qed.

Lemma row_flows_not_NaN (row : gmap string Cell) (key : string) (v : jsnum) :
  row_flows NumberToString row !! key = Some v -> isNaN v = false.
Proof.
  rewrite row_flows_lookup. destruct (is_year key); [|done].
  destruct (row !! key) as [cell|]; [|done].
  intros [= <-]. apply cell_flow_not_NaN.
Qed.

End TableFacts.

(** ** The classifier *)

(** C7: [getFeatureType] looks only at the lower-cased label, in this order:
    "point" or "weir" gives [weir] whatever the attributes hold (their TYPE
    included), else "canal" gives [canal], else "river" gives [river], else
    [canal]. It is a total function of its two arguments, so it returns a
    category for every label and attribute bag; and two labels that differ
    only in case are classified alike, whatever the attributes. *)
Theorem getFeatureType_precedence (NumberToString : jsnum -> string)
    (filePath : string) (properties : gmap string jsval) :
  getFeatureType NumberToString filePath properties =
    (let label := toLowerCase filePath in
     if includes label "point" || includes label "weir" then weir
     else if includes label "canal" then canal
     else if includes label "river" then river
     else canal)
  /\ (forall (filePath' : string) (properties' : gmap string jsval),
        toLowerCase filePath' = toLowerCase filePath ->
        getFeatureType NumberToString filePath' properties'
        = getFeatureType NumberToString filePath properties).
Proof.
  assert (Hspec : forall p a,
             getFeatureType NumberToString p a =
               (let label := toLowerCase p in
                if includes label "point" || includes label "weir" then weir
                else if includes label "canal" then canal
                else if includes label "river" then river
                else canal)).
  { intros p a. unfold getFeatureType. cbv zeta.
    destruct (includes (toLowerCase p) "point" || includes (toLowerCase p) "weir");
      [|reflexivity].
    destruct (truthy (get a "TYPE")
              && String.eqb (toLowerCase (ToString NumberToString (get a "TYPE"))) "weir");
      reflexivity. }
  split; [apply Hspec|].
  intros p' a' Hlow. rewrite !Hspec. cbv zeta. by rewrite Hlow.
Qed.

Lemma getFeatureType_precedence_witness :
  toLowerCase "/path/to/SOME_RIVER_FILE.SHP" = toLowerCase "/path/to/some_river_file.shp"
  /\ getFeatureType NumberToString_decimal "/path/to/SOME_RIVER_FILE.SHP"
       {[ "TYPE" := VStr "weir" ]}
     = getFeatureType NumberToString_decimal "/path/to/some_river_file.shp" ∅.
Proof.
  split; [reflexivity|].
  apply (getFeatureType_precedence NumberToString_decimal
           "/path/to/some_river_file.shp" ∅).
  reflexivity.
Defined.

Example getFeatureType_point_other :
  getFeatureType NumberToString_decimal "/path/to/some_point_file.shp"
                 {[ "TYPE" := VStr "other" ]} = weir.
Proof. reflexivity. Qed.

Example getFeatureType_upper :
  getFeatureType NumberToString_decimal "/path/to/SOME_RIVER_FILE.SHP" ∅ = river.
Proof. reflexivity. Qed.

Example getFeatureType_default :
  getFeatureType NumberToString_decimal "/path/to/another_unknown_structure.dat" ∅ = canal.
Proof. reflexivity. Qed.

(** ** The rows of the table *)

(** C4: a row with a non-empty identifier is stored under its trimmed
    identifier, and what is stored holds, for every column whose header is
    four digits, [parseFloat] of the cell, or 0 where that is NaN (an empty
    cell is such a cell); no stored value is NaN; a column whose header is
    not four digits has no entry. *)
Theorem year_columns_parsed (NumberToString : jsnum -> string)
    (flowDataMap : gmap string (gmap string jsnum)) (out : list Diag)
    (row : gmap string Cell) (MapID : string) :
  row !! "MapID" = Some (CStr MapID) ->
  MapID <> "" ->
  exists flows : gmap string jsnum,
    (process_row NumberToString (flowDataMap, out) row).1 !! trim MapID = Some flows
    /\ (forall key cell, is_year key = true -> row !! key = Some cell ->
          flows !! key =
            Some (let flowVal := parseFloat (ToString NumberToString (cell_value cell)) in
                  if isNaN flowVal then zero else flowVal))
    /\ (forall key s, is_year key = true -> row !! key = Some (CStr s) ->
          flows !! key = Some (if isNaN (parseFloat s) then zero else parseFloat s))
    /\ (forall key, is_year key = true -> row !! key = Some (CStr "") ->
          flows !! key = Some zero)
    /\ (forall key v, flows !! key = Some v -> isNaN v = false)
    /\ (forall key, is_year key = false -> flows !! key = None).
Proof.
  intros HMapID Hne. exists (row_flows NumberToString row).
  assert (Hyear : forall key cell, is_year key = true -> row !! key = Some cell ->
            row_flows NumberToString row !! key = Some (cell_flow NumberToString cell)).
  { intros key cell Hy Hc. by rewrite row_flows_lookup, Hy, Hc. }
  repeat split.
  - unfold process_row. rewrite HMapID.
    destruct (String.eqb_spec MapID "") as [->|_]; [done|].
    simpl. apply lookup_insert_eq.
  - exact Hyear.
  - intros key s Hy Hc. by rewrite (Hyear key _ Hy Hc).
  - intros key Hy Hc. by rewrite (Hyear key _ Hy Hc).
  - intros key v. apply row_flows_not_NaN.
  - intros key Hy. by rewrite row_flows_lookup, Hy.
Qed.

Lemma year_columns_parsed_witness :
  row_C1 !! "MapID" = Some (CStr "C1") /\ "C1" <> "" /\
  exists flows : gmap string jsnum,
    (process_row NumberToString_decimal (∅, []) row_C1).1 !! "C1" = Some flows
    /\ flows !! "1979" = Some (Finite false 10 0)
    /\ flows !! "1980" = Some zero
    /\ flows !! "Notes" = None.
Proof.
  split; [reflexivity|]. split; [discriminate|].
  destruct (year_columns_parsed NumberToString_decimal ∅ [] row_C1 "C1")
    as (flows & Hstored & _ & Hstr & Hempty & _ & Hother);
    [reflexivity | discriminate |].
  exists flows. split; [exact Hstored|]. split; [|split].
  - apply (Hstr "1979" "10"); reflexivity.
  - apply (Hempty "1980"); reflexivity.
  - apply (Hother "Notes"); reflexivity.
Defined.

(** C10: a row whose identifier cell is white space only, and not empty, is
    not skipped: the test of line 76 sees the untrimmed value, so the row's
    flows are stored under the key [""], and nothing is written to the
    console for the row. *)
Theorem blank_identifier_kept (NumberToString : jsnum -> string)
    (flowDataMap : gmap string (gmap string jsnum)) (out : list Diag)
    (row : gmap string Cell) (MapID : string) :
  row !! "MapID" = Some (CStr MapID) ->
  MapID <> "" ->
  all_white MapID = true ->
  process_row NumberToString (flowDataMap, out) row
  = (<["" := row_flows NumberToString row]> flowDataMap, out).
Proof.
  intros HMapID Hne Hwhite. unfold process_row. rewrite HMapID.
  destruct (String.eqb_spec MapID "") as [->|_]; [done|].
  by rewrite trim_all_white.
Qed.

Lemma blank_identifier_kept_witness :
  row_blank !! "MapID" = Some (CStr "  ") /\ "  " <> "" /\ all_white "  " = true /\
  process_row NumberToString_decimal (∅, []) row_blank
  = (<["" := row_flows NumberToString_decimal row_blank]> ∅, []).
Proof.
  split; [reflexivity|]. split; [discriminate|]. split; [reflexivity|].
  apply (blank_identifier_kept NumberToString_decimal ∅ [] row_blank "  ");
    [reflexivity | discriminate | reflexivity].
Defined.

Example blank_identifier_flows :
  flow_table NumberToString_decimal (world_of [row_blank] []) "table" !! ""
  = Some {[ "1979" := Finite false 7 0 ]}.
Proof. vm_compute. reflexivity. Qed.

(** ** A run, source by source and feature by feature *)

Section RunFacts.

Variable NumberToString : jsnum -> string.


Ltac frame_simpl :=
  unfold push, log, empty_store; cbn [allFeatures console app];
  rewrite ?app_nil_r, <- ?app_assoc; reflexivity.

Lemma store_eta (st : Store) :
  st = {| allFeatures := allFeatures st; console := console st |}.
Proof. by destruct st. Qed.

Lemma log_frame (d : Diag) (st : Store) :
  log d st = {| allFeatures := allFeatures st ++ []; console := console st ++ [d] |}.
Proof. unfold log. by rewrite app_nil_r. Qed.

Lemma push_frame (f : FlowFeature.t) (st : Store) :
  push f st = {| allFeatures := allFeatures st ++ [f]; console := console st ++ [] |}.
Proof. unfold push. by rewrite app_nil_r. Qed.

(** A feature only appends: what it adds does not depend on the store. *)
Lemma process_feature_frame (path : string) (typeOverride : option FeatureType)
    (table : gmap string (gmap string jsnum)) (st : Store) (feature : GeoJSON.Feature) :
  process_feature NumberToString path typeOverride table st feature =
    {| allFeatures :=
         allFeatures st
         ++ feature_output NumberToString path typeOverride table feature;
       console :=
         console st
         ++ feature_diags NumberToString path typeOverride table feature |}.
Proof.
  unfold feature_output, feature_diags, process_feature.
  destruct (mapId_of NumberToString feature) as [mapId|]; [|apply log_frame].
  destruct (String.eqb mapId ""); [apply log_frame|].
  destruct (table !! mapId) as [sectionFlows|];
    destruct (normalize mapId (GeoJSON.geometry feature)) as [g|d];
    frame_simpl.
Qed.

Lemma features_frame (path : string) (typeOverride : option FeatureType)
    (table : gmap string (gmap string jsnum)) (features : list GeoJSON.Feature)
    (st : Store) :
  foldl (process_feature NumberToString path typeOverride table) st features =
    {| allFeatures :=
         allFeatures st
         ++ flat_map (feature_output NumberToString path typeOverride table) features;
       console :=
         console st
         ++ flat_map (feature_diags NumberToString path typeOverride table) features |}.
Proof.
  revert st. induction features as [|f features IH]; intros st; cbn [foldl flat_map].
  - rewrite !app_nil_r. apply store_eta.
  - rewrite IH, process_feature_frame. frame_simpl.
Qed.

(** The features of a source are those of its decoded features, in their
    order; none when the source cannot be loaded. *)
Lemma source_output_load (w : World) (table : gmap string (gmap string jsnum))
    (cfg : ShapefileConfig) :
  source_output NumberToString w table cfg =
    match load_source w cfg with
    | Ok features =>
        flat_map (feature_output NumberToString (path cfg) (typeOverride cfg) table)
                 features
    | Throw _ => []
    end.
Proof.
  unfold source_output, process_source, load_source.
  destruct (Promise_all _ _) as [[shp dbf]|e]; [|done].
  destruct (shapefile_read w shp dbf) as [features|e]; [|done].
  by rewrite features_frame.
Qed.

Lemma process_source_frame (w : World) (table : gmap string (gmap string jsnum))
    (st : Store) (cfg : ShapefileConfig) :
  process_source NumberToString w table st cfg =
    {| allFeatures := allFeatures st ++ source_output NumberToString w table cfg;
       console := console st ++ source_diags NumberToString w table cfg |}.
Proof.
  unfold source_output, source_diags, process_source.
  destruct (Promise_all _ _) as [[shp dbf]|e]; [|frame_simpl].
  destruct (shapefile_read w shp dbf) as [features|e]; [|frame_simpl].
  rewrite !features_frame. frame_simpl.
Qed.

Lemma sources_frame (w : World) (table : gmap string (gmap string jsnum))
    (cfgs : list ShapefileConfig) (st : Store) :
  foldl (process_source NumberToString w table) st cfgs =
    {| allFeatures :=
         allFeatures st ++ flat_map (source_output NumberToString w table) cfgs;
       console := console st ++ flat_map (source_diags NumberToString w table) cfgs |}.
Proof.
  revert st. induction cfgs as [|cfg cfgs IH]; intros st; cbn [foldl flat_map].
  - rewrite !app_nil_r. apply store_eta.
  - rewrite IH, process_source_frame. frame_simpl.
Qed.

(** The table does not depend on what the console held before. *)
Lemma rows_frame (rows : list (gmap string Cell))
    (m : gmap string (gmap string jsnum)) (out : list Diag) :
  foldl (process_row NumberToString) (m, out) rows =
    ((foldl (process_row NumberToString) (m, []) rows).1,
     out ++ (foldl (process_row NumberToString) (m, []) rows).2).
Proof.
  revert m out. induction rows as [|row rows IH]; intros m out; cbn [foldl].
  - cbn [fst snd]. by rewrite app_nil_r.
  - assert (Hstep : exists m' ds,
               forall o, process_row NumberToString (m, o) row = (m', o ++ ds)).
    { unfold process_row.
      destruct (row !! "MapID") as [[|MapID]|].
      - exists m, [WarnSkippingRow row]. done.
      - destruct (String.eqb MapID "").
        + exists m, [WarnSkippingRow row]. done.
        + eexists _, []. intros o. by rewrite app_nil_r.
      - exists m, [WarnSkippingRow row]. done. }
    destruct Hstep as (m' & ds & Hstep).
    rewrite (Hstep out), (Hstep []). cbn [app].
    rewrite (IH m' (out ++ ds)), (IH m' ds). cbn [fst snd]. by rewrite app_assoc.
Qed.

(** The shape of a run: it fails exactly with the error of the table's
    fetch; otherwise it returns the features of the sources in the order of
    the configuration. *)
Lemma run_shape (w : World) (csvFilePath : string) (cfgs : list ShapefileConfig) :
  fetchAndProcessDataForAllSources NumberToString w csvFilePath cfgs =
    match fetch_csv w csvFilePath with
    | Throw error => (Throw error, [LogStarting; ErrorFatal error])
    | Ok csvText =>
        let table := flow_table NumberToString w csvText in
        let features := flat_map (source_output NumberToString w table) cfgs in
        (Ok features,
         (build_flowDataMap NumberToString (Papa_parse w csvText)
            ([LogStarting; LogCsvParsed (length (data (Papa_parse w csvText)))]
             ++ match errors (Papa_parse w csvText) with
                | [] => []
                | _ :: _ => [WarnCsvErrors (errors (Papa_parse w csvText))]
                end)).2
         ++ [LogFlowMapCreated (size table)]
         ++ flat_map (source_diags NumberToString w table) cfgs
         ++ [LogAllProcessed (length features)])
    end.
Proof.
  unfold fetchAndProcessDataForAllSources.
  destruct (fetch_csv w csvFilePath) as [csvText|error]; [|done].
  cbv zeta.
  set (out0 := match errors (Papa_parse w csvText) with
               | [] => _
               | _ :: _ => _
               end).
  assert (Hout0 : out0 =
            [LogStarting; LogCsvParsed (length (data (Papa_parse w csvText)))]
            ++ match errors (Papa_parse w csvText) with
               | [] => []
               | _ :: _ => [WarnCsvErrors (errors (Papa_parse w csvText))]
               end).
  { subst out0. by destruct (errors (Papa_parse w csvText)). }
  rewrite <- Hout0.
  unfold flow_table, flow_table, build_flowDataMap.
  rewrite (rows_frame _ ∅ out0).
  rewrite sources_frame. simpl. by rewrite <- !app_assoc.
Qed.

End RunFacts.

Section SourceFacts.

Variable NumberToString : jsnum -> string.

(** A source that cannot be loaded leaves its error line on the console. *)
Lemma source_diags_fail (w : World) (table : gmap string (gmap string jsnum))
    (cfg : ShapefileConfig) (error : string) :
  load_source w cfg = Throw error ->
  ErrorProcessingShapefile (path cfg) ∈ source_diags NumberToString w table cfg.
Proof.
  unfold load_source, source_diags, process_source.
  destruct (Promise_all _ _) as [[shp dbf]|e].
  - intros ->. unfold log, empty_store. cbn [console app].
    apply list_elem_of_In. simpl. auto.
  - intros _. unfold log, empty_store. cbn [console app].
    apply list_elem_of_In. simpl. auto.
Qed.

(** What a source does depends on the world only through the two files it
    fetches and through the decoder. *)
Lemma process_source_agree (w1 w2 : World)
    (table : gmap string (gmap string jsnum)) (st : Store) (cfg : ShapefileConfig) :
  fetch w1 (path cfg) = fetch w2 (path cfg) ->
  fetch w1 (replace (path cfg) ".shp" ".dbf")
  = fetch w2 (replace (path cfg) ".shp" ".dbf") ->
  (forall shp dbf, shapefile_read w1 shp dbf = shapefile_read w2 shp dbf) ->
  process_source NumberToString w1 table st cfg
  = process_source NumberToString w2 table st cfg.
Proof.
  intros Hshp Hdbf Hread. unfold process_source, fetch_buffer.
  rewrite Hshp, Hdbf.
  destruct (Promise_all _ _) as [[shp dbf]|e]; [|done].
  by rewrite Hread.
Qed.

Lemma sources_agree (w1 w2 : World)
    (table : gmap string (gmap string jsnum)) (cfgs : list ShapefileConfig) (st : Store) :
  (forall cfg, cfg ∈ cfgs ->
     fetch w1 (path cfg) = fetch w2 (path cfg)
     /\ fetch w1 (replace (path cfg) ".shp" ".dbf")
        = fetch w2 (replace (path cfg) ".shp" ".dbf")) ->
  (forall shp dbf, shapefile_read w1 shp dbf = shapefile_read w2 shp dbf) ->
  foldl (process_source NumberToString w1 table) st cfgs
  = foldl (process_source NumberToString w2 table) st cfgs.
Proof.
  intros Hfetch Hread. revert st.
  induction cfgs as [|cfg cfgs IH]; intros st; cbn [foldl]; [done|].
  destruct (Hfetch cfg) as [Hshp Hdbf]; [apply list_elem_of_here|].
  rewrite (process_source_agree w1 w2 table st cfg Hshp Hdbf Hread).
  apply IH. intros cfg' Hin. apply Hfetch. by apply list_elem_of_further.
Qed.

End SourceFacts.

(** ** Failures *)

(** C1: the run fails exactly when the tabular source cannot be fetched or
    read, and then with that error; errors reported by the table decoder do
    not make it fail. A geometry source whose fetch or decoding fails adds no
    feature and leaves an error line naming its path on the console; the
    sources before and after it contribute what they contribute without it,
    and the run succeeds. *)
Theorem only_the_table_is_fatal (NumberToString : jsnum -> string) (w : World)
    (csvFilePath : string) (shapefileConfigs : list ShapefileConfig) :
  (forall error,
      (fetchAndProcessDataForAllSources NumberToString w csvFilePath shapefileConfigs).1
      = Throw error
      <-> fetch_csv w csvFilePath = Throw error)
  /\ (forall csvText before cfg after error,
        fetch_csv w csvFilePath = Ok csvText ->
        shapefileConfigs = before ++ cfg :: after ->
        load_source w cfg = Throw error ->
        source_output NumberToString w (flow_table NumberToString w csvText) cfg = []
        /\ ErrorProcessingShapefile (path cfg)
           ∈ (fetchAndProcessDataForAllSources NumberToString w csvFilePath
                shapefileConfigs).2
        /\ (fetchAndProcessDataForAllSources NumberToString w csvFilePath
              shapefileConfigs).1
           = Ok (flat_map (source_output NumberToString w
                             (flow_table NumberToString w csvText)) before
                 ++ flat_map (source_output NumberToString w
                                (flow_table NumberToString w csvText)) after)
        /\ (fetchAndProcessDataForAllSources NumberToString w csvFilePath
              shapefileConfigs).1
           = (fetchAndProcessDataForAllSources NumberToString w csvFilePath
                (before ++ after)).1).
Proof.
  split.
  - intros error. rewrite run_shape.
    destruct (fetch_csv w csvFilePath) as [csvText|e]; cbn [fst].
    + split; discriminate.
    + split; intros [= ->]; reflexivity.
  - intros csvText before cfg after error Hcsv -> Hload.
    assert (Hnone : source_output NumberToString w
                      (flow_table NumberToString w csvText) cfg = []).
    { by rewrite source_output_load, Hload. }
    split; [exact Hnone|].
    rewrite !run_shape, Hcsv. cbv zeta. cbn [fst snd].
    rewrite !flat_map_app. cbn [flat_map]. rewrite Hnone. cbn [app].
    split; [|split; reflexivity].
    pose proof (source_diags_fail NumberToString w
                  (flow_table NumberToString w csvText) cfg error Hload) as Hin.
    rewrite !elem_of_app, elem_of_cons, !elem_of_app. tauto.
Qed.

Example run_partial :
  (fetchAndProcessDataForAllSources NumberToString_decimal world_partial csvUrl
     [canals; rivers; weirs]).2
  = [LogStarting; LogCsvParsed 1; LogFlowMapCreated 1;
     LogProcessingShapefile "/fake/canals.shp"; LogFetched "/fake/canals.shp";
     LogShapefileRead "/fake/canals.shp" 1;
     LogProcessingShapefile "/fake/rivers.shp";
     ErrorProcessingShapefile "/fake/rivers.shp";
     LogProcessingShapefile "/fake/weirs.shp"; LogFetched "/fake/weirs.shp";
     LogShapefileRead "/fake/weirs.shp" 1;
     WarnNoFlowData "W1" "/fake/weirs.shp";
     LogAllProcessed 2].
Proof. vm_compute. reflexivity. Qed.

Lemma only_the_table_is_fatal_witness :
  fetch_csv world_partial csvUrl = Ok "table"
  /\ load_source world_partial rivers = Throw "Failed to fetch"
  /\ ErrorProcessingShapefile "/fake/rivers.shp"
     ∈ (fetchAndProcessDataForAllSources NumberToString_decimal world_partial csvUrl
          [canals; rivers; weirs]).2
  /\ (fetchAndProcessDataForAllSources NumberToString_decimal world_partial csvUrl
        [canals; rivers; weirs]).1
     = (fetchAndProcessDataForAllSources NumberToString_decimal world_partial csvUrl
          [canals; weirs]).1.
Proof.
  split; [reflexivity|]. split; [reflexivity|].
  destruct (only_the_table_is_fatal NumberToString_decimal world_partial csvUrl
              [canals; rivers; weirs]) as [_ H].
  destruct (H "table" [canals] rivers [weirs] "Failed to fetch")
    as (_ & Hlog & _ & Hsame); [reflexivity | reflexivity | reflexivity |].
  split; [exact Hlog | exact Hsame].
Defined.

(** ** Determinism *)

(** C8: the outcome of a run, its console included, is determined by what
    the table's URL gives, by what the two URLs of each configured source
    give, and by the two decoders: two worlds that agree on these give the
    same list. The other URLs of the network, and anything else about the
    moment of the run, have no part in it. The list is the features of the
    sources in the order of the configuration, and within a source in the
    order of its decoded features. *)
Theorem run_determined_by_inputs (NumberToString : jsnum -> string) (w1 w2 : World)
    (csvFilePath : string) (shapefileConfigs : list ShapefileConfig) :
  fetch w1 csvFilePath = fetch w2 csvFilePath ->
  (forall csvText, Papa_parse w1 csvText = Papa_parse w2 csvText) ->
  (forall cfg, cfg ∈ shapefileConfigs ->
     fetch w1 (path cfg) = fetch w2 (path cfg)
     /\ fetch w1 (replace (path cfg) ".shp" ".dbf")
        = fetch w2 (replace (path cfg) ".shp" ".dbf")) ->
  (forall shp dbf, shapefile_read w1 shp dbf = shapefile_read w2 shp dbf) ->
  fetchAndProcessDataForAllSources NumberToString w1 csvFilePath shapefileConfigs
  = fetchAndProcessDataForAllSources NumberToString w2 csvFilePath shapefileConfigs
  /\ (forall features,
        (fetchAndProcessDataForAllSources NumberToString w1 csvFilePath
           shapefileConfigs).1 = Ok features ->
        exists csvText,
          fetch_csv w1 csvFilePath = Ok csvText
          /\ features =
               flat_map
                 (fun cfg =>
                    match load_source w1 cfg with
                    | Ok decoded =>
                        flat_map (feature_output NumberToString (path cfg)
                                    (typeOverride cfg)
                                    (flow_table NumberToString w1 csvText)) decoded
                    | Throw _ => []
                    end)
                 shapefileConfigs).
Proof.
  intros Hcsv Hparse Hfetch Hread. split.
  - unfold fetchAndProcessDataForAllSources, fetch_csv. rewrite Hcsv.
    destruct (fetch w2 csvFilePath) as [e|ok statusText body]; [done|].
    destruct (negb ok); [done|]. destruct body as [e|csvText]; [done|].
    cbv zeta. rewrite (Hparse csvText).
    destruct (build_flowDataMap _ _ _) as [table out].
    by rewrite (sources_agree NumberToString w1 w2 table shapefileConfigs _ Hfetch Hread).
  - intros features. rewrite run_shape.
    destruct (fetch_csv w1 csvFilePath) as [csvText|e]; [|discriminate].
    cbv zeta. cbn [fst]. intros [= <-]. exists csvText. split; [done|].
    apply flat_map_ext. intros cfg. apply source_output_load.
Qed.

Lemma run_determined_by_inputs_witness :
  fetch world_partial "/fake/unrelated.shp" <> fetch world_partial' "/fake/unrelated.shp"
  /\ fetchAndProcessDataForAllSources NumberToString_decimal world_partial csvUrl
       [canals; rivers; weirs]
     = fetchAndProcessDataForAllSources NumberToString_decimal world_partial' csvUrl
         [canals; rivers; weirs].
Proof.
  split; [discriminate|].
  apply (run_determined_by_inputs NumberToString_decimal world_partial world_partial'
           csvUrl [canals; rivers; weirs]).
  - reflexivity.
  - reflexivity.
  - intros cfg Hin.
    apply list_elem_of_In in Hin. simpl in Hin.
    destruct Hin as [<-|[<-|[<-|[]]]]; split; reflexivity.
  - reflexivity.
Defined.

(** ** The features of a run *)

Section FeatureFacts.

Variable NumberToString : jsnum -> string.

(** The category line 141 settles on. *)
Local Abbreviation category path typeOverride feature :=
  (match typeOverride with
   | Some t => t
   | None => getFeatureType NumberToString path
               (default ∅ (GeoJSON.properties feature))
   end).

(** A feature with an identifier and a geometry the worker accepts gives
    exactly one record. *)
Lemma feature_output_pushed (path : string) (typeOverride : option FeatureType)
    (table : gmap string (gmap string jsnum)) (feature : GeoJSON.Feature)
    (mapId : string) (g : GeoJSON.Geometry) :
  mapId_of NumberToString feature = Some mapId ->
  mapId <> "" ->
  normalize mapId (GeoJSON.geometry feature) = inl g ->
  exists f,
    feature_output NumberToString path typeOverride table feature = [f]
    /\ FlowFeature.id f
       = mapId +:+ "_" +:+ type_string (FlowFeature.type (FlowFeature.properties f))
    /\ FlowFeature.geometry f = g
    /\ FlowFeature.type (FlowFeature.properties f) = category path typeOverride feature
    /\ FlowFeature.flows (FlowFeature.properties f) = default ∅ (table !! mapId).
Proof.
  intros Hid Hne Hnorm. unfold feature_output, process_feature.
  rewrite Hid. destruct (String.eqb_spec mapId "") as [->|_]; [done|].
  rewrite Hnorm.
  exists {| FlowFeature.id :=
              mapId +:+ "_" +:+ type_string (category path typeOverride feature);
            FlowFeature.geometry := g;
            FlowFeature.properties :=
              {| FlowFeature.name :=
                   match probe namePropertyKeys (GeoJSON.properties feature) with
                   | Some v => ToString NumberToString v
                   | None => "Unknown"
                   end;
                 FlowFeature.type := category path typeOverride feature;
                 FlowFeature.flows := default ∅ (table !! mapId) |} |}.
  split; [|done].
  destruct (table !! mapId); unfold push, log, empty_store;
    cbn [allFeatures app]; reflexivity.
Qed.

(** Whatever is not of that kind gives none. *)
Lemma feature_output_skipped (path : string) (typeOverride : option FeatureType)
    (table : gmap string (gmap string jsnum)) (feature : GeoJSON.Feature) :
  (mapId_of NumberToString feature = None
   \/ mapId_of NumberToString feature = Some ""
   \/ exists mapId d, mapId_of NumberToString feature = Some mapId
                      /\ normalize mapId (GeoJSON.geometry feature) = inr d) ->
  feature_output NumberToString path typeOverride table feature = [].
Proof.
  unfold feature_output, process_feature.
  intros [->|[->|(mapId & d & -> & Hnorm)]]; [done|done|].
  destruct (String.eqb mapId ""); [done|].
  rewrite Hnorm. by destruct (table !! mapId).
Qed.

(** Every record comes from such a feature. *)
Lemma feature_output_inv (path : string) (typeOverride : option FeatureType)
    (table : gmap string (gmap string jsnum)) (feature : GeoJSON.Feature)
    (f : FlowFeature.t) :
  f ∈ feature_output NumberToString path typeOverride table feature ->
  exists mapId,
    mapId_of NumberToString feature = Some mapId
    /\ mapId <> ""
    /\ normalize mapId (GeoJSON.geometry feature) = inl (FlowFeature.geometry f)
    /\ FlowFeature.id f
       = mapId +:+ "_" +:+ type_string (FlowFeature.type (FlowFeature.properties f))
    /\ FlowFeature.type (FlowFeature.properties f) = category path typeOverride feature
    /\ FlowFeature.flows (FlowFeature.properties f) = default ∅ (table !! mapId).
Proof.
  intros Hin.
  destruct (mapId_of NumberToString feature) as [mapId|] eqn:Hid.
  2: { rewrite feature_output_skipped in Hin by auto. by apply elem_of_nil in Hin. }
  destruct (String.eqb_spec mapId "") as [->|Hne].
  { rewrite feature_output_skipped in Hin by auto. by apply elem_of_nil in Hin. }
  destruct (normalize mapId (GeoJSON.geometry feature)) as [g|d] eqn:Hnorm.
  2: { rewrite feature_output_skipped in Hin by eauto 6.
       by apply elem_of_nil in Hin. }
  destruct (feature_output_pushed path typeOverride table feature mapId g Hid Hne Hnorm)
    as (f' & Hout & Hfid & Hg & Hty & Hfl).
  rewrite Hout in Hin. apply list_elem_of_singleton in Hin as ->.
  exists mapId. rewrite Hg. done.
Qed.

(** Every record a run returns comes from a decoded feature of a
    configured source. *)
Lemma run_output_inv (w : World) (csvFilePath : string)
    (cfgs : list ShapefileConfig) (fs : list FlowFeature.t) (f : FlowFeature.t) :
  (fetchAndProcessDataForAllSources NumberToString w csvFilePath cfgs).1 = Ok fs ->
  f ∈ fs ->
  exists csvText cfg decoded feature,
    fetch_csv w csvFilePath = Ok csvText
    /\ cfg ∈ cfgs
    /\ load_source w cfg = Ok decoded
    /\ feature ∈ decoded
    /\ f ∈ feature_output NumberToString (path cfg) (typeOverride cfg)
             (flow_table NumberToString w csvText) feature.
Proof.
  rewrite run_shape.
  destruct (fetch_csv w csvFilePath) as [csvText|e]; [|discriminate].
  cbv zeta. cbn [fst]. intros [= <-] Hin.
  apply list_elem_of_In, in_flat_map in Hin as (cfg & Hcfg & Hin).
  rewrite source_output_load in Hin.
  destruct (load_source w cfg) as [decoded|e] eqn:Hload; [|done].
  apply in_flat_map in Hin as (feature & Hfeature & Hin).
  exists csvText, cfg, decoded, feature.
  rewrite <- !list_elem_of_In in *. done.
Qed.

(** And every record of a decoded feature of a configured source is
    returned. *)
Lemma run_output_intro (w : World) (csvFilePath csvText : string)
    (cfgs : list ShapefileConfig) (cfg : ShapefileConfig)
    (decoded : list GeoJSON.Feature) (feature : GeoJSON.Feature) (f : FlowFeature.t) :
  fetch_csv w csvFilePath = Ok csvText ->
  cfg ∈ cfgs ->
  load_source w cfg = Ok decoded ->
  feature ∈ decoded ->
  f ∈ feature_output NumberToString (path cfg) (typeOverride cfg)
        (flow_table NumberToString w csvText) feature ->
  exists fs,
    (fetchAndProcessDataForAllSources NumberToString w csvFilePath cfgs).1 = Ok fs
    /\ f ∈ fs.
Proof.
  intros Hcsv Hcfg Hload Hfeature Hf. rewrite run_shape, Hcsv. cbv zeta. cbn [fst].
  eexists. split; [reflexivity|].
  apply list_elem_of_In, in_flat_map. exists cfg.
  split; [by apply list_elem_of_In|].
  rewrite source_output_load, Hload. apply in_flat_map. exists feature.
  split; by apply list_elem_of_In.
Qed.

(** No flow of the table is NaN. *)
Lemma process_row_not_NaN (st : gmap string (gmap string jsnum) * list Diag)
    (row : gmap string Cell) :
  (forall mapId flows year v,
      st.1 !! mapId = Some flows -> flows !! year = Some v -> isNaN v = false) ->
  forall mapId flows year v,
    (process_row NumberToString st row).1 !! mapId = Some flows ->
    flows !! year = Some v -> isNaN v = false.
Proof.
  destruct st as [m out]. cbn [fst]. intros Hinv mapId flows year v.
  unfold process_row.
  destruct (row !! "MapID") as [[|MapID]|]; cbn [fst]; try apply Hinv.
  destruct (String.eqb MapID ""); cbn [fst]; [apply Hinv|].
  destruct (decide (trim MapID = mapId)) as [<-|Hne].
  - rewrite lookup_insert_eq. intros [= <-]. apply row_flows_not_NaN.
  - rewrite lookup_insert_ne by done. apply Hinv.
Qed.

Lemma rows_not_NaN (rows : list (gmap string Cell))
    (st : gmap string (gmap string jsnum) * list Diag) :
  (forall mapId flows year v,
      st.1 !! mapId = Some flows -> flows !! year = Some v -> isNaN v = false) ->
  forall mapId flows year v,
    (foldl (process_row NumberToString) st rows).1 !! mapId = Some flows ->
    flows !! year = Some v -> isNaN v = false.
Proof.
  revert st. induction rows as [|row rows IH]; intros st Hinv; cbn [foldl].
  - exact Hinv.
  - apply IH. by apply process_row_not_NaN.
Qed.

Lemma flow_table_not_NaN (w : World) (csvText mapId : string)
    (flows : gmap string jsnum) (year : string) (v : jsnum) :
  flow_table NumberToString w csvText !! mapId = Some flows ->
  flows !! year = Some v -> isNaN v = false.
Proof.
  unfold flow_table, build_flowDataMap. apply rows_not_NaN.
  cbn [fst]. intros ? ? ? ?. by rewrite lookup_empty.
Qed.

(** A feature whose identifier has no row leaves the warning of line 126
    on the console. *)
Lemma feature_diags_no_flow (path : string) (typeOverride : option FeatureType)
    (table : gmap string (gmap string jsnum)) (feature : GeoJSON.Feature)
    (mapId : string) :
  mapId_of NumberToString feature = Some mapId ->
  mapId <> "" ->
  table !! mapId = None ->
  WarnNoFlowData mapId path
  ∈ feature_diags NumberToString path typeOverride table feature.
Proof.
  intros Hid Hne Hnone. unfold feature_diags, process_feature.
  rewrite Hid. destruct (String.eqb_spec mapId "") as [->|_]; [done|].
  rewrite Hnone.
  destruct (normalize mapId (GeoJSON.geometry feature));
    unfold push, log, empty_store; cbn [console app];
    apply list_elem_of_In; simpl; auto.
Qed.

Lemma source_diags_load (w : World) (table : gmap string (gmap string jsnum))
    (cfg : ShapefileConfig) (decoded : list GeoJSON.Feature) :
  load_source w cfg = Ok decoded ->
  source_diags NumberToString w table cfg =
    [LogProcessingShapefile (path cfg); LogFetched (path cfg);
     LogShapefileRead (path cfg) (length decoded)]
    ++ flat_map (feature_diags NumberToString (path cfg) (typeOverride cfg) table)
                decoded.
Proof.
  unfold load_source, source_diags, process_source.
  destruct (Promise_all _ _) as [[shp dbf]|e]; [|discriminate].
  intros ->. rewrite features_frame. unfold log, empty_store.
  cbn [console app]. reflexivity.
Qed.

End FeatureFacts.

Example run_partial_features :
  (fetchAndProcessDataForAllSources NumberToString_decimal world_partial csvUrl
     [canals; rivers; weirs]).1 = Ok [feature_C1; feature_W1].
Proof. vm_compute. reflexivity. Qed.

(** ** Identifiers of the records *)




(** ** The flows of the records *)

(** C5, as the code has it, at a cell that reads "Infinity": [parseFloat]
    gives Infinity, which is not NaN, so it is stored, and the flow of the
    record is not a finite number. *)
Lemma flows_not_always_finite :
  (fetchAndProcessDataForAllSources NumberToString_decimal world_inf csvUrl
     [canals]).1 = Ok [feature_C1_inf]
  /\ FlowFeature.flows (FlowFeature.properties feature_C1_inf) !! "1979"
     = Some (Infinity false)
  /\ isFinite (Infinity false) = false.
Proof. split; [vm_compute; reflexivity|]. split; reflexivity. Qed.

(** C5, amended: no flow of a record is NaN, and the flows of a record are
    always there: the flows of the row of its identifier, or the empty
    mapping when the table has no such row. *)
Theorem flows_present_never_NaN (NumberToString : jsnum -> string) (w : World)
    (csvFilePath : string) (shapefileConfigs : list ShapefileConfig)
    (fs : list FlowFeature.t) (f : FlowFeature.t) :
  (fetchAndProcessDataForAllSources NumberToString w csvFilePath shapefileConfigs).1
  = Ok fs ->
  f ∈ fs ->
  (forall year v,
      FlowFeature.flows (FlowFeature.properties f) !! year = Some v -> isNaN v = false)
  /\ exists csvText mapId,
       fetch_csv w csvFilePath = Ok csvText
       /\ FlowFeature.id f
          = mapId +:+ "_" +:+ type_string (FlowFeature.type (FlowFeature.properties f))
       /\ FlowFeature.flows (FlowFeature.properties f)
          = match flow_table NumberToString w csvText !! mapId with
            | Some sectionFlows => sectionFlows
            | None => ∅
            end.
Proof.
  intros Hrun Hf.
  destruct (run_output_inv NumberToString w csvFilePath shapefileConfigs fs f Hrun Hf)
    as (csvText & cfg & decoded & feature & Hcsv & _ & _ & _ & Hout).
  apply feature_output_inv in Hout as (mapId & _ & _ & _ & Hfid & _ & Hflows).
  split.
  - intros year v. rewrite Hflows.
    destruct (flow_table NumberToString w csvText !! mapId) as [sectionFlows|] eqn:Hrow.
    + cbn [default].
      apply (flow_table_not_NaN NumberToString w csvText mapId sectionFlows year v Hrow).
    + cbn [default]. by rewrite lookup_empty.
  - exists csvText, mapId. rewrite Hflows.
    by destruct (flow_table NumberToString w csvText !! mapId).
Qed.

Lemma flows_present_never_NaN_witness :
  (fetchAndProcessDataForAllSources NumberToString_decimal world_partial csvUrl
     [canals; rivers; weirs]).1 = Ok [feature_C1; feature_W1]
  /\ feature_C1 ∈ [feature_C1; feature_W1]
  /\ forall year v,
       FlowFeature.flows (FlowFeature.properties feature_C1) !! year = Some v ->
       isNaN v = false.
Proof.
  split; [vm_compute; reflexivity|]. split; [apply list_elem_of_here|].
  apply (flows_present_never_NaN NumberToString_decimal world_partial csvUrl
           [canals; rivers; weirs] [feature_C1; feature_W1] feature_C1).
  - vm_compute; reflexivity.
  - apply list_elem_of_here.
Defined.

(** ** Identifiers without a row *)

(** C6, as the code has it, at a polygon whose identifier has no row: the
    warning of line 126 is written, and then the feature is skipped for its
    geometry; no record is produced for it. *)
Lemma unmatched_polygon_skipped :
  load_source world_poly canals = Ok [polygon_Poly1]
  /\ mapId_of NumberToString_decimal polygon_Poly1 = Some "Poly1"
  /\ flow_table NumberToString_decimal world_poly "table" !! "Poly1" = None
  /\ fetchAndProcessDataForAllSources NumberToString_decimal world_poly csvUrl [canals]
     = (Ok [],
        [LogStarting; LogCsvParsed 0; LogFlowMapCreated 0;
         LogProcessingShapefile "/fake/canals.shp"; LogFetched "/fake/canals.shp";
         LogShapefileRead "/fake/canals.shp" 1;
         WarnNoFlowData "Poly1" "/fake/canals.shp";
         WarnUnsupportedGeometry "Poly1" (Some "Polygon");
         LogAllProcessed 0]).
Proof. repeat split; vm_compute; reflexivity. Qed.

(** C6, amended: for a decoded feature of a configured source whose
    identifier has no row in the table, the warning naming the identifier and
    the source is on the console; and when its geometry is a point, a
    polyline or a multi-polyline with a part, the run returns a record for
    it, with the empty mapping as its flows. *)
Theorem unmatched_identifier_empty_flows (NumberToString : jsnum -> string) (w : World)
    (csvFilePath csvText : string) (shapefileConfigs : list ShapefileConfig)
    (cfg : ShapefileConfig) (decoded : list GeoJSON.Feature)
    (feature : GeoJSON.Feature) (mapId : string) :
  fetch_csv w csvFilePath = Ok csvText ->
  cfg ∈ shapefileConfigs ->
  load_source w cfg = Ok decoded ->
  feature ∈ decoded ->
  mapId_of NumberToString feature = Some mapId ->
  mapId <> "" ->
  flow_table NumberToString w csvText !! mapId = None ->
  WarnNoFlowData mapId (path cfg)
  ∈ (fetchAndProcessDataForAllSources NumberToString w csvFilePath shapefileConfigs).2
  /\ (forall g,
        normalize mapId (GeoJSON.geometry feature) = inl g ->
        exists fs f,
          (fetchAndProcessDataForAllSources NumberToString w csvFilePath
             shapefileConfigs).1 = Ok fs
          /\ f ∈ fs
          /\ FlowFeature.id f
             = mapId +:+ "_" +:+ type_string (FlowFeature.type (FlowFeature.properties f))
          /\ FlowFeature.geometry f = g
          /\ FlowFeature.flows (FlowFeature.properties f) = ∅).
Proof.
  intros Hcsv Hcfg Hload Hfeature Hid Hne Hnone. split.
  - rewrite run_shape, Hcsv. cbv zeta. cbn [snd].
    rewrite !elem_of_app. right. right. left.
    apply list_elem_of_In, in_flat_map. exists cfg.
    split; [by apply list_elem_of_In|].
    rewrite (source_diags_load NumberToString w
               (flow_table NumberToString w csvText) cfg decoded Hload).
    apply in_or_app. right. apply in_flat_map. exists feature.
    split; [by apply list_elem_of_In|].
    apply list_elem_of_In. by apply feature_diags_no_flow.
  - intros g Hnorm.
    destruct (feature_output_pushed NumberToString (path cfg) (typeOverride cfg)
                (flow_table NumberToString w csvText) feature mapId g Hid Hne Hnorm)
      as (f & Hout & Hfid & Hg & _ & Hflows).
    destruct (run_output_intro NumberToString w csvFilePath csvText shapefileConfigs
                cfg decoded feature f Hcsv Hcfg Hload Hfeature) as (fs & Hrun & Hf).
    { rewrite Hout. apply list_elem_of_here. }
    exists fs, f. rewrite Hnone in Hflows. done.
Qed.

Lemma unmatched_identifier_empty_flows_witness :
  WarnNoFlowData "W1" "/fake/weirs.shp"
  ∈ (fetchAndProcessDataForAllSources NumberToString_decimal world_partial csvUrl
       [canals; rivers; weirs]).2
  /\ exists fs f,
       (fetchAndProcessDataForAllSources NumberToString_decimal world_partial csvUrl
          [canals; rivers; weirs]).1 = Ok fs
       /\ f ∈ fs
       /\ FlowFeature.id f
          = "W1" +:+ "_" +:+ type_string (FlowFeature.type (FlowFeature.properties f))
       /\ FlowFeature.geometry f = GeoJSON.LineString segment
       /\ FlowFeature.flows (FlowFeature.properties f) = ∅.
Proof.
  destruct (unmatched_identifier_empty_flows NumberToString_decimal world_partial
              csvUrl "table" [canals; rivers; weirs] weirs [line "W1" segment]
              (line "W1" segment) "W1") as [Hlog Hrecord].
  - reflexivity.
  - apply list_elem_of_further, list_elem_of_further, list_elem_of_here.
  - reflexivity.
  - apply list_elem_of_here.
  - reflexivity.
  - discriminate.
  - vm_compute; reflexivity.
  - split; [exact Hlog|]. apply Hrecord. reflexivity.
Defined.

(** ** Geometries *)



Example feature_without_identifier :
  process_feature NumberToString_decimal "/fake/canals.shp" None ∅ empty_store
    {| GeoJSON.geometry := Some (GeoJSON.LineString segment);
       GeoJSON.properties := Some {[ "NAME" := VStr "NoMapID" ]} |}
  = {| allFeatures := [];
       console := [WarnMissingMapID "/fake/canals.shp"
                     (Some {[ "NAME" := VStr "NoMapID" ]})] |}.
Proof. vm_compute. reflexivity. Qed.

Example polygon_skipped :
  process_feature NumberToString_decimal "/fake/mixed_geometries.shp" (Some canal)
    {[ "Poly1" := {[ "1979" := Finite false 50 0 ]} ]} empty_store polygon_Poly1
  = {| allFeatures := [];
       console := [WarnUnsupportedGeometry "Poly1" (Some "Polygon")] |}.
Proof. vm_compute. reflexivity. Qed.

(** ** The hook *)

Section ShimFacts.

Import UseFlowData.

Lemma exec_step (s : Shim) (ev : Event) (s' : Shim) :
  exec s ev = Some s' -> step s ev s'.
Proof.
  destruct ev as [m|message|p|p]; cbn [exec].
  - destruct (worker s) eqn:Hw; [discriminate| |discriminate].
    intros [= <-]. by constructor.
  - destruct (worker s) eqn:Hw; [discriminate| |discriminate].
    intros [= <-]. by constructor.
  - destruct (decide (p ∈ waiting s)) as [|Hw]; [discriminate|].
    destruct (decide (p ∈ (settled s).*1)) as [|Hs]; [discriminate|].
    intros [= <-]. constructor. by intros [?|?].
  - destruct (decide (p ∈ waiting s)) as [Hw|]; [|discriminate].
    intros [= <-]. by constructor.
Qed.

Lemma exec_all_run (evs : list Event) (s s' : Shim) :
  exec_all s evs = Some s' -> run s evs s'.
Proof.
  revert s. induction evs as [|ev evs IH]; intros s; cbn [exec_all].
  - intros [= <-]. constructor.
  - destruct (exec s ev) as [s1|] eqn:Hexec; [|discriminate].
    intros Hrest. apply run_cons with s1; [by apply exec_step | by apply IH].
Qed.

Lemma inv_init (hasWorker : bool) : inv hasWorker (init hasWorker).
Proof.
  destruct hasWorker; (split; [reflexivity|]); cbn.
  - done.
  - split; [done|]. intros p o Hin. by apply elem_of_nil in Hin.
Qed.

Lemma checkData_idle (p : nat) (s : Shim) :
  isLoadingData s = false -> checkData p s = settle p (outcome s) s.
Proof.
  intros Hidle. unfold checkData, outcome. rewrite Hidle.
  destruct (error_set s); [done|]. by destruct (data_set s).
Qed.

Lemma queryFn_idle (p : nat) (s : Shim) :
  isLoadingData s = false -> queryFn p s = settle p (outcome s) s.
Proof.
  intros Hidle. unfold queryFn. rewrite (checkData_idle p s Hidle).
  unfold outcome. destruct (error_set s); [done|]. by destruct (data_set s).
Qed.

Lemma checkData_loading (p : nat) (s : Shim) :
  isLoadingData s = true -> workerDataCache s = None -> workerErrorCache s = None ->
  checkData p s = setTimeout p s.
Proof.
  intros Hload Hdata Herr. unfold checkData, error_set, data_set.
  by rewrite Hload, Hdata, Herr.
Qed.

Lemma queryFn_loading (p : nat) (s : Shim) :
  isLoadingData s = true -> workerDataCache s = None -> workerErrorCache s = None ->
  queryFn p s = setTimeout p s.
Proof.
  intros Hload Hdata Herr. unfold queryFn.
  rewrite (checkData_loading p s Hload Hdata Herr).
  unfold error_set, data_set. by rewrite Hdata, Herr.
Qed.

Lemma outcome_settle (p : nat) (o : Outcome) (s : Shim) :
  outcome (settle p o s) = outcome s.
Proof. reflexivity. Qed.

Lemma inv_settle (hasWorker : bool) (p : nat) (s : Shim) :
  worker s <> Running -> inv hasWorker s -> inv hasWorker (settle p (outcome s) s).
Proof.
  intros Hw [Hposted Hinv]. split; [exact Hposted|].
  assert (Hidle : isLoadingData s = false
                  /\ forall q o, (q, o) ∈ settled s -> o = outcome s).
  { by destruct (worker s). }
  destruct Hidle as [Hidle Hsettled].
  assert (Hgoal : isLoadingData (settle p (outcome s) s) = false
                  /\ forall q o, (q, o) ∈ settled (settle p (outcome s) s) ->
                                 o = outcome (settle p (outcome s) s)).
  { split; [exact Hidle|]. intros q o. rewrite outcome_settle.
    cbn [settled settle]. rewrite elem_of_app, list_elem_of_singleton.
    intros [Hin|[= -> ->]]; [by apply Hsettled with q | reflexivity]. }
  change (worker (settle p (outcome s) s)) with (worker s).
  by destruct (worker s).
Qed.

Lemma inv_step (hasWorker : bool) (s : Shim) (ev : Event) (s' : Shim) :
  step s ev s' -> inv hasWorker s -> inv hasWorker s'.
Proof.
  intros Hstep [Hposted Hinv].
  destruct Hstep as [m s Hw|message s Hw|p s Hnew|p s Hwait].
  - rewrite Hw in Hinv. destruct Hinv as (_ & _ & _ & Hnone).
    split; [by destruct m|].
    destruct m; cbn; (split; [done|]); rewrite Hnone;
      intros p o Hin; by apply elem_of_nil in Hin.
  - rewrite Hw in Hinv. destruct Hinv as (_ & _ & _ & Hnone).
    split; [done|]. cbn. split; [done|]. rewrite Hnone.
    intros p o Hin. by apply elem_of_nil in Hin.
  - destruct (worker s) eqn:Hw.
    + destruct Hinv as [Hidle Hsettled]. rewrite (queryFn_idle p s Hidle).
      apply inv_settle; [by rewrite Hw|]. split; [done|]. by rewrite Hw.
    + destruct Hinv as (Hload & Hdata & Herr & Hnone).
      rewrite (queryFn_loading p s Hload Hdata Herr).
      split; [done|]. cbn [worker setTimeout]. by rewrite Hw.
    + destruct Hinv as [Hidle Hsettled]. rewrite (queryFn_idle p s Hidle).
      apply inv_settle; [by rewrite Hw|]. split; [done|]. by rewrite Hw.
  - assert (Hclear : inv hasWorker (clearTimeout p s)).
    { split; [done|]. cbn [worker clearTimeout]. exact Hinv. }
    destruct (worker s) eqn:Hw.
    + destruct Hinv as [Hidle Hsettled].
      rewrite (checkData_idle p (clearTimeout p s) Hidle).
      apply inv_settle; [cbn; by rewrite Hw | exact Hclear].
    + destruct Hinv as (Hload & Hdata & Herr & Hnone).
      rewrite (checkData_loading p (clearTimeout p s) Hload Hdata Herr).
      split; [done|]. cbn [worker setTimeout clearTimeout]. by rewrite Hw.
    + destruct Hinv as [Hidle Hsettled].
      rewrite (checkData_idle p (clearTimeout p s) Hidle).
      apply inv_settle; [cbn; by rewrite Hw | exact Hclear].
Qed.

Lemma inv_run (hasWorker : bool) (s : Shim) (evs : list Event) (s' : Shim) :
  run s evs s' -> inv hasWorker s -> inv hasWorker s'.
Proof.
  induction 1 as [s|s ev s1 evs s2 Hstep _ IH]; [done|].
  intros Hinv. apply IH. by apply inv_step with s ev.
Qed.

(** Once the worker has answered (or where there is none) the caches stay
    as they are, and no message of a worker is handled any more. *)
Lemma idle_step (s : Shim) (ev : Event) (s' : Shim) :
  step s ev s' -> worker s <> Running ->
  worker s' = worker s
  /\ workerDataCache s' = workerDataCache s
  /\ workerErrorCache s' = workerErrorCache s
  /\ isLoadingData s' = isLoadingData s
  /\ posted s' = posted s
  /\ from_worker ev = false.
Proof.
  intros Hstep Hw.
  destruct Hstep as [m s Hrun|message s Hrun|p s Hnew|p s Hwait]; [done|done| |].
  - unfold queryFn, checkData.
    repeat match goal with |- context [if ?b then _ else _] => destruct b end;
      done.
  - unfold checkData.
    repeat match goal with |- context [if ?b then _ else _] => destruct b end;
      done.
Qed.

Lemma idle_run (s : Shim) (evs : list Event) (s' : Shim) :
  run s evs s' -> worker s <> Running ->
  workerDataCache s' = workerDataCache s
  /\ workerErrorCache s' = workerErrorCache s
  /\ isLoadingData s' = isLoadingData s
  /\ posted s' = posted s
  /\ filter (fun ev => from_worker ev = true) evs = [].
Proof.
  induction 1 as [s|s ev s1 evs s2 Hstep _ IH]; [done|].
  intros Hw.
  destruct (idle_step s ev s1 Hstep Hw) as (Hw1 & Hd & He & Hl & Hp & Hev).
  destruct IH as (Hd' & He' & Hl' & Hp' & Hevs); [by rewrite Hw1|].
  rewrite Hd', He', Hl', Hp'. repeat (split; [done|]).
  rewrite filter_cons_False; [done|]. by rewrite Hev.
Qed.

(** The worker answers at most once. *)
Lemma one_answer (s : Shim) (evs : list Event) (s' : Shim) :
  run s evs s' -> length (filter (fun ev => from_worker ev = true) evs) <= 1.
Proof.
  induction 1 as [s|s ev s1 evs s2 Hstep Hrun IH]; [cbn; lia|].
  destruct Hstep as [m s Hw|message s Hw|p s Hnew|p s Hwait].
  - rewrite filter_cons_True by done.
    destruct (idle_run _ _ _ Hrun) as (_ & _ & _ & _ & ->);
      [by destruct m | cbn; lia].
  - rewrite filter_cons_True by done.
    destruct (idle_run _ _ _ Hrun) as (_ & _ & _ & _ & ->);
      [discriminate | cbn; lia].
  - rewrite filter_cons_False by done. exact IH.
  - rewrite filter_cons_False by done. exact IH.
Qed.

End ShimFacts.

(** C9: in every state the module can reach, ['loadData'] has been posted
    at most once (once where there are workers, never where there are none),
    and the worker has answered at most once. While the module is loading, a
    request starts nothing: its promise waits, and no promise is settled yet.
    All settled promises got the same outcome, the one the caches give; a
    promise that still waits when the worker has answered gets that outcome
    at its next check. From then on the caches and the count of posted
    requests never change, whatever happens: the result, data or error, is
    kept and nothing is tried again. *)
Theorem single_flight (hasWorker : bool) (evs : list UseFlowData.Event)
    (s : UseFlowData.Shim) :
  UseFlowData.run (UseFlowData.init hasWorker) evs s ->
  UseFlowData.posted s <= 1
  /\ UseFlowData.posted s = (if hasWorker then 1 else 0)
  /\ length (filter (fun ev => UseFlowData.from_worker ev = true) evs) <= 1
  /\ (UseFlowData.isLoadingData s = true ->
      UseFlowData.posted s = 1
      /\ UseFlowData.settled s = []
      /\ forall p, UseFlowData.queryFn p s = UseFlowData.setTimeout p s)
  /\ (forall p q op oq,
        (p, op) ∈ UseFlowData.settled s -> (q, oq) ∈ UseFlowData.settled s ->
        op = oq /\ op = UseFlowData.outcome s)
  /\ (UseFlowData.worker s <> UseFlowData.Running ->
      forall p,
        p ∈ UseFlowData.waiting s ->
        UseFlowData.settled (UseFlowData.checkData p (UseFlowData.clearTimeout p s))
        = UseFlowData.settled s ++ [(p, UseFlowData.outcome s)])
  /\ (UseFlowData.worker s <> UseFlowData.Running ->
      forall evs' s',
        UseFlowData.run s evs' s' ->
        UseFlowData.workerDataCache s' = UseFlowData.workerDataCache s
        /\ UseFlowData.workerErrorCache s' = UseFlowData.workerErrorCache s
        /\ UseFlowData.posted s' = UseFlowData.posted s
        /\ filter (fun ev => UseFlowData.from_worker ev = true) evs' = []).
Proof.
  intros Hrun.
  pose proof (inv_run hasWorker _ _ _ Hrun (inv_init hasWorker)) as [Hposted Hinv].
  split; [rewrite Hposted; destruct hasWorker; lia|].
  split; [exact Hposted|].
  split; [by apply one_answer with (UseFlowData.init hasWorker) s|].
  split; [|split; [|split]].
  - intros Hload.
    destruct (UseFlowData.worker s); destruct Hinv as [Hl Hrest];
      try congruence.
    destruct Hrest as (Hdata & Herr & Hnone).
    split; [|split; [exact Hnone|]].
    + rewrite Hposted. destruct hasWorker; [done|].
      (* without workers the module never loads *)
      exfalso. clear -Hrun Hload.
      destruct (idle_run _ _ _ Hrun) as (_ & _ & Hl' & _); [discriminate|].
      cbn in Hl'. congruence.
    + intros p. by apply queryFn_loading.
  - intros p q op oq Hp Hq.
    destruct (UseFlowData.worker s).
    + destruct Hinv as [_ Hsettled].
      rewrite (Hsettled p op Hp), (Hsettled q oq Hq). done.
    + destruct Hinv as (_ & _ & _ & Hnone). rewrite Hnone in Hp.
      by apply elem_of_nil in Hp.
    + destruct Hinv as [_ Hsettled].
      rewrite (Hsettled p op Hp), (Hsettled q oq Hq). done.
  - intros Hw p Hwait.
    assert (Hidle : UseFlowData.isLoadingData s = false).
    { destruct (UseFlowData.worker s); [apply Hinv|done|apply Hinv]. }
    rewrite (checkData_idle p (UseFlowData.clearTimeout p s) Hidle). reflexivity.
  - intros Hw evs' s' Hrun'.
    destruct (idle_run _ _ _ Hrun' Hw) as (Hd & He & _ & Hp & Hevs). done.
Qed.

Lemma single_flight_witness :
  UseFlowData.run (UseFlowData.init true) two_requests after_two_requests
  /\ UseFlowData.posted after_two_requests = 1
  /\ forall p q op oq,
       (p, op) ∈ UseFlowData.settled after_two_requests ->
       (q, oq) ∈ UseFlowData.settled after_two_requests ->
       op = oq /\ op = UseFlowData.Resolved [].
Proof.
  assert (Hrun : UseFlowData.run (UseFlowData.init true) two_requests
                   after_two_requests).
  { apply exec_all_run. vm_compute. reflexivity. }
  split; [exact Hrun|].
  destruct (single_flight true two_requests after_two_requests Hrun)
    as (_ & Hposted & _ & _ & Hsame & _).
  split; [exact Hposted | exact Hsame].
Defined.

Example no_worker :
  UseFlowData.exec_all (UseFlowData.init false)
    [UseFlowData.EvQuery 1; UseFlowData.EvQuery 2]
  = Some {| UseFlowData.workerDataCache := None;
            UseFlowData.workerErrorCache := Some "Web Workers are not supported.";
            UseFlowData.isLoadingData := false;
            UseFlowData.posted := 0;
            UseFlowData.worker := UseFlowData.NoWorker;
            UseFlowData.waiting := [];
            UseFlowData.settled :=
              [(1, UseFlowData.Rejected "Web Workers are not supported.");
               (2, UseFlowData.Rejected "Web Workers are not supported.")] |}.
Proof. vm_compute. reflexivity. Qed.

Example empty_error_message :
  UseFlowData.exec_all (UseFlowData.init true)
    [UseFlowData.EvQuery 1; UseFlowData.EvMessage (UseFlowData.dataError "");
     UseFlowData.EvTimeout 1; UseFlowData.EvQuery 2]
  = Some {| UseFlowData.workerDataCache := None;
            UseFlowData.workerErrorCache := Some "";
            UseFlowData.isLoadingData := false;
            UseFlowData.posted := 1;
            UseFlowData.worker := UseFlowData.Terminated;
            UseFlowData.waiting := [];
            UseFlowData.settled :=
              [(1, UseFlowData.Rejected "Failed to load data from worker.");
               (2, UseFlowData.Rejected "Failed to load data from worker.")] |}.
Proof. vm_compute. reflexivity. Qed.

(** * Further properties of the worker and of the hook *)

(** ** The table as a whole *)

Section TableAsAWhole.

Variable NumberToString : jsnum -> string.

Lemma process_row_key (m : gmap string (gmap string jsnum)) (out : list Diag)
    (row : gmap string Cell) :
  process_row NumberToString (m, out) row =
    match row_key row with
    | Some key => (<[key := row_flows NumberToString row]> m, out)
    | None => (m, out ++ [WarnSkippingRow row])
    end.
Proof.
  unfold process_row, row_key.
  destruct (row !! "MapID") as [[|MapID]|]; [done| |done].
  by destruct (String.eqb MapID "").
Qed.

Lemma rows_lookup (rows : list (gmap string Cell))
    (m : gmap string (gmap string jsnum)) (out : list Diag) (key : string) :
  (foldl (process_row NumberToString) (m, out) rows).1 !! key =
    match last (filter (fun row => row_key row = Some key) rows) with
    | Some row => Some (row_flows NumberToString row)
    | None => m !! key
    end.
Proof.
  revert m out. induction rows as [|row rows IH]; intros m out; cbn [foldl].
  - done.
  - rewrite process_row_key.
    destruct (row_key row) as [k|] eqn:Hkey.
    + rewrite IH. destruct (decide (k = key)) as [->|Hne].
      * rewrite filter_cons_True by done. rewrite last_cons.
        destruct (last (filter _ rows)); [done|]. apply lookup_insert_eq.
      * rewrite filter_cons_False by congruence.
        destruct (last (filter _ rows)); [done|]. by apply lookup_insert_ne.
    + rewrite IH. by rewrite filter_cons_False by congruence.
Qed.

Lemma rows_console (rows : list (gmap string Cell))
    (m : gmap string (gmap string jsnum)) (out : list Diag) :
  (foldl (process_row NumberToString) (m, out) rows).2 =
    out ++ (WarnSkippingRow <$> filter (fun row => row_key row = None) rows).
Proof.
  revert m out. induction rows as [|row rows IH]; intros m out; cbn [foldl].
  - cbn. by rewrite app_nil_r.
  - rewrite process_row_key.
    destruct (row_key row) as [k|] eqn:Hkey; rewrite IH.
    + by rewrite filter_cons_False by congruence.
    + rewrite filter_cons_True by done. rewrite fmap_cons.
      by rewrite <- app_assoc.
Qed.

Lemma rows_size (rows : list (gmap string Cell))
    (m : gmap string (gmap string jsnum)) (out : list Diag) :
  size (foldl (process_row NumberToString) (m, out) rows).1
  + length (filter (fun row => row_key row = None) rows)
  <= size m + length rows.
Proof.
  revert m out. induction rows as [|row rows IH]; intros m out; cbn [foldl].
  - cbn. lia.
  - rewrite process_row_key.
    destruct (row_key row) as [k|] eqn:Hkey.
    + rewrite filter_cons_False by congruence.
      specialize (IH (<[k := row_flows NumberToString row]> m) out).
      pose proof (map_size_insert k (row_flows NumberToString row) m) as Hsize.
      destruct (m !! k); cbn [length]; unfold id in Hsize; lia.
    + rewrite filter_cons_True by done.
      specialize (IH m (out ++ [WarnSkippingRow row])). cbn [length]. lia.
Qed.

End TableAsAWhole.

(** X1: what the table holds for a key is the flows of the last row that is
    stored under that key (a row is stored under its trimmed identifier when
    the identifier is a non-empty string); the table has no entry for a key
    no row is stored under. So of two rows with one identifier, or with
    identifiers that differ only in the white space around them, the later
    one replaces the earlier. *)
Theorem last_row_wins (NumberToString : jsnum -> string) (w : World)
    (csvText key : string) :
  flow_table NumberToString w csvText !! key =
    row_flows NumberToString
    <$> last (filter (fun row => row_key row = Some key) (data (Papa_parse w csvText))).
Proof.
  unfold flow_table, build_flowDataMap. rewrite rows_lookup.
  destruct (last _); [done|]. apply lookup_empty.
Qed.

Example last_row_wins_example :
  flow_table NumberToString_decimal
    (world_of [ {[ "MapID" := CStr "C1"; "1979" := CStr "1" ]};
                {[ "MapID" := CStr " C1 "; "1979" := CStr "2" ]};
                {[ "MapID" := CNull; "1979" := CStr "3" ]} ] []) "table"
  = {[ "C1" := {[ "1979" := Finite false 2 0 ]} ]}.
Proof. vm_compute. reflexivity. Qed.

(** X2: the table never has more entries than there are rows with an
    identifier: its size plus the number of skipped rows is at most the
    number of rows. *)
Theorem table_size_bound (NumberToString : jsnum -> string) (w : World)
    (csvText : string) :
  size (flow_table NumberToString w csvText)
  + length (filter (fun row => row_key row = None) (data (Papa_parse w csvText)))
  <= length (data (Papa_parse w csvText)).
Proof.
  unfold flow_table, build_flowDataMap.
  pose proof (rows_size NumberToString (data (Papa_parse w csvText)) ∅ []) as H.
  rewrite map_size_empty in H. exact H.
Qed.

(** X3: building the table writes one line to the console for each row
    without identifier (no MapID field, [null], or the empty string), in the
    order of the rows, and nothing else. *)
Theorem skipped_rows_warned (NumberToString : jsnum -> string)
    (parseResult : ParseResult) (out : list Diag) :
  (build_flowDataMap NumberToString parseResult out).2 =
    out ++ (WarnSkippingRow
            <$> filter (fun row => row_key row = None) (data parseResult)).
Proof. unfold build_flowDataMap. apply rows_console. Qed.

(** ** The alias keys *)

(** X4: probing a list of alias keys gives the value at the first key whose
    value is truthy, and nothing when there is no such key or when the
    attribute bag is [null]. *)
Theorem probe_first_truthy (keys : list string) (obj : gmap string jsval) :
  probe keys None = None
  /\ (forall v,
        probe keys (Some obj) = Some v
        <-> exists before key after,
              keys = before ++ key :: after
              /\ Forall (fun k => truthy (get obj k) = false) before
              /\ truthy (get obj key) = true
              /\ v = get obj key)
  /\ (probe keys (Some obj) = None
      <-> Forall (fun k => truthy (get obj k) = false) keys).
Proof.
  split; [by induction keys|]. split.
  - induction keys as [|k keys IH]; intros v; cbn [probe].
    + split; [discriminate|]. intros (before & key & after & Hkeys & _).
      by destruct before.
    + destruct (truthy (get obj k)) eqn:Hk.
      * split.
        -- intros [= <-]. exists [], k, keys. by repeat split.
        -- intros (before & key & after & Hkeys & Hbefore & Hkey & ->).
           destruct before as [|b before]; simplify_eq/=; [done|].
           apply Forall_cons in Hbefore as [Hb _]. congruence.
      * rewrite IH. split.
        -- intros (before & key & after & -> & Hbefore & Hkey & ->).
           exists (k :: before), key, after. repeat split; [|done].
           by apply Forall_cons.
        -- intros (before & key & after & Hkeys & Hbefore & Hkey & ->).
           destruct before as [|b before]; simplify_eq/=; [congruence|].
           apply Forall_cons in Hbefore as [_ Hbefore].
           by exists before, key, after.
  - induction keys as [|k keys IH]; cbn [probe]; [done|].
    destruct (truthy (get obj k)) eqn:Hk.
    + split; [discriminate|]. intros [Hk' _]%Forall_cons. congruence.
    + rewrite IH, Forall_cons. tauto.
Qed.

Example probe_aliases :
  probe mapIdPropertyKeys (Some {[ "SiteID" := VStr "W1"; "MapID" := VStr "";
                                   "mapid" := VNum (Finite false 0 0) ]})
  = Some (VStr "W1").
Proof. vm_compute. reflexivity. Qed.

(** ** One feature, one record at most *)

Section RecordFacts.

Variable NumberToString : jsnum -> string.

Lemma normalize_rejects (mapId : string) (g : option GeoJSON.Geometry) :
  (exists d, normalize mapId g = inr d)
  <-> g = None \/ g = Some (GeoJSON.MultiLineString [])
      \/ exists kind, g = Some (GeoJSON.Other kind).
Proof.
  split.
  - intros [d Hd]. destruct g as [[c|cs|[|first rest]|kind]|]; cbn in Hd;
      try discriminate; eauto.
  - intros [->|[->|[kind ->]]]; cbn; eauto.
Qed.

Lemma feature_output_name (path : string) (typeOverride : option FeatureType)
    (table : gmap string (gmap string jsnum)) (feature : GeoJSON.Feature)
    (f : FlowFeature.t) :
  f ∈ feature_output NumberToString path typeOverride table feature ->
  FlowFeature.name (FlowFeature.properties f) =
    match probe namePropertyKeys (GeoJSON.properties feature) with
    | Some v => ToString NumberToString v
    | None => "Unknown"
    end.
Proof.
  unfold feature_output, process_feature.
  destruct (mapId_of NumberToString feature) as [mapId|];
    [|intros H; by apply elem_of_nil in H].
  destruct (String.eqb mapId ""); [intros H; by apply elem_of_nil in H|].
  destruct (normalize mapId (GeoJSON.geometry feature)) as [g|d];
    destruct (table !! mapId); unfold push, log, empty_store;
    cbn [allFeatures app]; intros H;
    first [by apply elem_of_nil in H
          | apply list_elem_of_singleton in H as ->; reflexivity].
Qed.

Lemma getFeatureType_attributes (filePath : string) (a b : gmap string jsval) :
  getFeatureType NumberToString filePath a = getFeatureType NumberToString filePath b.
Proof.
  unfold getFeatureType. cbv zeta.
  destruct (includes (toLowerCase filePath) "point"
            || includes (toLowerCase filePath) "weir"); [|reflexivity].
  destruct (truthy (get a "TYPE") && _); destruct (truthy (get b "TYPE") && _);
    reflexivity.
Qed.

Lemma length_flat_map_le {A B : Type} (f : A -> list B) (l : list A) :
  (forall x, length (f x) <= 1) -> length (flat_map f l) <= length l.
Proof.
  intros Hf. induction l as [|x l IH]; cbn [flat_map length]; [lia|].
  rewrite length_app. specialize (Hf x). lia.
Qed.

Lemma feature_output_length (path : string) (typeOverride : option FeatureType)
    (table : gmap string (gmap string jsnum)) (feature : GeoJSON.Feature) :
  length (feature_output NumberToString path typeOverride table feature) <= 1.
Proof.
  destruct (mapId_of NumberToString feature) as [mapId|] eqn:Hid.
  2: { rewrite feature_output_skipped by auto. cbn. lia. }
  destruct (String.eqb_spec mapId "") as [->|Hne].
  { rewrite feature_output_skipped by auto. cbn. lia. }
  destruct (normalize mapId (GeoJSON.geometry feature)) as [g|d] eqn:Hnorm.
  - destruct (feature_output_pushed NumberToString path typeOverride table feature
                mapId g Hid Hne Hnorm) as (f & -> & _). cbn. lia.
  - rewrite feature_output_skipped by eauto 6. cbn. lia.
Qed.

Lemma source_output_length (w : World) (table : gmap string (gmap string jsnum))
    (cfg : ShapefileConfig) :
  length (source_output NumberToString w table cfg)
  <= match load_source w cfg with
     | Ok decoded => length decoded
     | Throw _ => 0
     end.
Proof.
  rewrite source_output_load. destruct (load_source w cfg) as [decoded|e]; [|done].
  apply length_flat_map_le. intros feature. apply feature_output_length.
Qed.

End RecordFacts.

(** X5: a decoded feature gives at most one record. It gives none exactly
    when no alias key of its attributes holds a truthy value, or the first
    such value is white space only, or its geometry is missing, is a
    multi-polyline without a part, or is of a kind other than point,
    polyline and multi-polyline. The name of the record is the first truthy
    value among NAME, Name, SiteName and GNIS_Name, as a string, or
    "Unknown". *)
Theorem one_record_or_none (NumberToString : jsnum -> string) (path : string)
    (typeOverride : option FeatureType)
    (flowDataMap : gmap string (gmap string jsnum)) (feature : GeoJSON.Feature) :
  length (feature_output NumberToString path typeOverride flowDataMap feature) <= 1
  /\ (feature_output NumberToString path typeOverride flowDataMap feature = []
      <-> mapId_of NumberToString feature = None
          \/ mapId_of NumberToString feature = Some ""
          \/ GeoJSON.geometry feature = None
          \/ GeoJSON.geometry feature = Some (GeoJSON.MultiLineString [])
          \/ exists kind, GeoJSON.geometry feature = Some (GeoJSON.Other kind))
  /\ (forall f,
        f ∈ feature_output NumberToString path typeOverride flowDataMap feature ->
        FlowFeature.name (FlowFeature.properties f) =
          match probe namePropertyKeys (GeoJSON.properties feature) with
          | Some v => ToString NumberToString v
          | None => "Unknown"
          end).
Proof.
  split; [apply feature_output_length|]. split; [|apply feature_output_name].
  split.
  - intros Hnone.
    destruct (mapId_of NumberToString feature) as [mapId|] eqn:Hid; [|by left].
    destruct (String.eqb_spec mapId "") as [->|Hne]; [by right; left|].
    right. right.
    destruct (normalize mapId (GeoJSON.geometry feature)) as [g|d] eqn:Hnorm.
    + destruct (feature_output_pushed NumberToString path typeOverride flowDataMap
                  feature mapId g Hid Hne Hnorm) as (f & Hout & _).
      rewrite Hout in Hnone. discriminate.
    + apply (normalize_rejects mapId). eauto.
  - intros Hskip. apply feature_output_skipped.
    destruct Hskip as [Hid|[Hid|Hgeo]]; [by left|by right; left|].
    destruct (mapId_of NumberToString feature) as [mapId|]; [|by left].
    right. right.
    destruct (proj2 (normalize_rejects mapId (GeoJSON.geometry feature)) Hgeo)
      as [d Hd].
    eauto.
Qed.

Example shadowed_identifier :
  feature_output NumberToString_decimal "/fake/canals.shp" None ∅
    {| GeoJSON.geometry := Some (GeoJSON.LineString segment);
       GeoJSON.properties := Some {[ "MAPID" := VStr "  "; "MapID" := VStr "C1" ]} |}
  = [].
Proof. vm_compute. reflexivity. Qed.

(** X6: a run returns at most as many records as the configured sources
    decode to features; a source that cannot be loaded counts for none. *)
Theorem records_bounded_by_features (NumberToString : jsnum -> string) (w : World)
    (csvFilePath : string) (shapefileConfigs : list ShapefileConfig)
    (fs : list FlowFeature.t) :
  (fetchAndProcessDataForAllSources NumberToString w csvFilePath shapefileConfigs).1
  = Ok fs ->
  length fs <= decoded_count w shapefileConfigs.
Proof.
  rewrite run_shape.
  destruct (fetch_csv w csvFilePath) as [csvText|e]; [|discriminate].
  cbv zeta. cbn [fst]. intros [= <-]. unfold decoded_count.
  induction shapefileConfigs as [|cfg cfgs IH]; [cbn; lia|].
  rewrite fmap_cons. cbn [flat_map]. rewrite length_app.
  pose proof (source_output_length NumberToString w
                (flow_table NumberToString w csvText) cfg) as Hcfg.
  change (sum_list (?x :: ?l)) with (x + sum_list l). lia.
Qed.

Lemma records_bounded_by_features_witness :
  (fetchAndProcessDataForAllSources NumberToString_decimal world_poly csvUrl
     [canals; rivers]).1 = Ok []
  /\ decoded_count world_poly [canals; rivers] = 1
  /\ length (@nil FlowFeature.t) <= decoded_count world_poly [canals; rivers].
Proof.
  split; [vm_compute; reflexivity|]. split; [vm_compute; reflexivity|].
  apply (records_bounded_by_features NumberToString_decimal world_poly csvUrl
           [canals; rivers] []).
  vm_compute; reflexivity.
Defined.

(** X7: the geometry of every record a run returns is a point or a
    polyline, never a multi-polyline or another kind: it is the point or the
    polyline of a decoded feature of a configured source, unchanged, or the
    first part of its multi-polyline. *)
Theorem record_geometry_provenance (NumberToString : jsnum -> string) (w : World)
    (csvFilePath : string) (shapefileConfigs : list ShapefileConfig)
    (fs : list FlowFeature.t) (f : FlowFeature.t) :
  (fetchAndProcessDataForAllSources NumberToString w csvFilePath shapefileConfigs).1
  = Ok fs ->
  f ∈ fs ->
  exists cfg decoded feature,
    cfg ∈ shapefileConfigs
    /\ load_source w cfg = Ok decoded
    /\ feature ∈ decoded
    /\ ((exists c, GeoJSON.geometry feature = Some (GeoJSON.Point c)
                   /\ FlowFeature.geometry f = GeoJSON.Point c)
        \/ (exists cs, GeoJSON.geometry feature = Some (GeoJSON.LineString cs)
                       /\ FlowFeature.geometry f = GeoJSON.LineString cs)
        \/ (exists first rest,
               GeoJSON.geometry feature
               = Some (GeoJSON.MultiLineString (first :: rest))
               /\ FlowFeature.geometry f = GeoJSON.LineString first)).
Proof.
  intros Hrun Hf.
  destruct (run_output_inv NumberToString w csvFilePath shapefileConfigs fs f Hrun Hf)
    as (csvText & cfg & decoded & feature & _ & Hcfg & Hload & Hfeature & Hout).
  apply feature_output_inv in Hout as (mapId & _ & _ & Hnorm & _).
  exists cfg, decoded, feature. repeat (split; [done|]).
  destruct (GeoJSON.geometry feature) as [[c|cs|[|first rest]|kind]|];
    cbn in Hnorm; try discriminate; injection Hnorm as <-; eauto 8.
Qed.

Lemma record_geometry_provenance_witness :
  (fetchAndProcessDataForAllSources NumberToString_decimal world_partial csvUrl
     [canals; rivers; weirs]).1 = Ok [feature_C1; feature_W1]
  /\ feature_C1 ∈ [feature_C1; feature_W1]
  /\ exists cfg decoded feature,
       cfg ∈ [canals; rivers; weirs]
       /\ load_source world_partial cfg = Ok decoded
       /\ feature ∈ decoded
       /\ ((exists c, GeoJSON.geometry feature = Some (GeoJSON.Point c)
                      /\ FlowFeature.geometry feature_C1 = GeoJSON.Point c)
           \/ (exists cs, GeoJSON.geometry feature = Some (GeoJSON.LineString cs)
                          /\ FlowFeature.geometry feature_C1 = GeoJSON.LineString cs)
           \/ (exists first rest,
                  GeoJSON.geometry feature
                  = Some (GeoJSON.MultiLineString (first :: rest))
                  /\ FlowFeature.geometry feature_C1 = GeoJSON.LineString first)).
Proof.
  split; [vm_compute; reflexivity|]. split; [apply list_elem_of_here|].
  apply (record_geometry_provenance NumberToString_decimal world_partial csvUrl
           [canals; rivers; weirs] [feature_C1; feature_W1] feature_C1).
  - vm_compute; reflexivity.
  - apply list_elem_of_here.
Defined.

(** X8: all records of one source have one category: the override of the
    source when it has one, else what the classifier makes of the path of
    the source, whatever the attributes of the features are. So every
    category in the list a run returns is the category of a configured
    source. *)
Theorem category_per_source (NumberToString : jsnum -> string) (w : World)
    (csvFilePath : string) (shapefileConfigs : list ShapefileConfig)
    (fs : list FlowFeature.t) (f : FlowFeature.t) :
  (fetchAndProcessDataForAllSources NumberToString w csvFilePath shapefileConfigs).1
  = Ok fs ->
  f ∈ fs ->
  exists csvText cfg,
    fetch_csv w csvFilePath = Ok csvText
    /\ cfg ∈ shapefileConfigs
    /\ f ∈ source_output NumberToString w (flow_table NumberToString w csvText) cfg
    /\ (forall g,
          g ∈ source_output NumberToString w
                (flow_table NumberToString w csvText) cfg ->
          FlowFeature.type (FlowFeature.properties g)
          = source_category NumberToString cfg).
Proof.
  intros Hrun Hf.
  destruct (run_output_inv NumberToString w csvFilePath shapefileConfigs fs f Hrun Hf)
    as (csvText & cfg & decoded & feature & Hcsv & Hcfg & Hload & Hfeature & Hout).
  exists csvText, cfg. repeat (split; [done|]). split.
  - rewrite source_output_load, Hload. apply list_elem_of_In, in_flat_map.
    exists feature. split; by apply list_elem_of_In.
  - intros g. rewrite source_output_load, Hload.
    intros (feature' & _ & Hg)%list_elem_of_In%in_flat_map.
    apply list_elem_of_In, feature_output_inv in Hg as (_ & _ & _ & _ & _ & -> & _).
    unfold source_category. destruct (typeOverride cfg); [done|].
    apply getFeatureType_attributes.
Qed.

Lemma category_per_source_witness :
  (fetchAndProcessDataForAllSources NumberToString_decimal world_partial csvUrl
     [canals; rivers; weirs]).1 = Ok [feature_C1; feature_W1]
  /\ feature_W1 ∈ [feature_C1; feature_W1]
  /\ exists cfg,
       cfg ∈ [canals; rivers; weirs]
       /\ forall g,
            g ∈ source_output NumberToString_decimal world_partial
                  (flow_table NumberToString_decimal world_partial "table") cfg ->
            FlowFeature.type (FlowFeature.properties g)
            = source_category NumberToString_decimal cfg.
Proof.
  split; [vm_compute; reflexivity|].
  split; [apply list_elem_of_further, list_elem_of_here|].
  destruct (category_per_source NumberToString_decimal world_partial csvUrl
              [canals; rivers; weirs] [feature_C1; feature_W1] feature_W1)
    as (csvText & cfg & Hcsv & Hcfg & _ & Hall).
  - vm_compute; reflexivity.
  - apply list_elem_of_further, list_elem_of_here.
  - injection Hcsv as <-. exists cfg. split; [exact Hcfg | exact Hall].
Defined.

(** X9: the join of a feature with the table does not see the white space
    around the two identifiers: when the identifier of the feature and the
    identifier cell of a row are equal after trimming, and no later row is
    stored under that key, the record of the feature has the flows of that
    row. *)
Theorem join_on_trimmed_identifier (NumberToString : jsnum -> string) (w : World)
    (csvText path : string) (typeOverride : option FeatureType)
    (feature : GeoJSON.Feature) (before after : list (gmap string Cell))
    (row : gmap string Cell) (MapID : string) (v : jsval) (g : GeoJSON.Geometry) :
  data (Papa_parse w csvText) = before ++ row :: after ->
  row !! "MapID" = Some (CStr MapID) ->
  Forall (fun later => row_key later <> Some (trim MapID)) after ->
  probe mapIdPropertyKeys (GeoJSON.properties feature) = Some v ->
  trim (ToString NumberToString v) = trim MapID ->
  trim MapID <> "" ->
  normalize (trim MapID) (GeoJSON.geometry feature) = inl g ->
  exists f,
    feature_output NumberToString path typeOverride
      (flow_table NumberToString w csvText) feature = [f]
    /\ FlowFeature.flows (FlowFeature.properties f) = row_flows NumberToString row.
Proof.
  intros Hdata HMapID Hafter Hprobe Htrim Hne Hnorm.
  assert (Hid : mapId_of NumberToString feature = Some (trim MapID)).
  { unfold mapId_of. rewrite Hprobe. cbn. by rewrite Htrim. }
  assert (Hkey : row_key row = Some (trim MapID)).
  { unfold row_key. rewrite HMapID.
    destruct (String.eqb_spec MapID "") as [->|_]; [done|reflexivity]. }
  assert (Hrow : flow_table NumberToString w csvText !! trim MapID
                 = Some (row_flows NumberToString row)).
  { unfold flow_table, build_flowDataMap. rewrite rows_lookup, Hdata.
    rewrite filter_app, filter_cons_True by done.
    assert (Hnil : filter (fun r => row_key r = Some (trim MapID)) after = []).
    { clear -Hafter. induction Hafter as [|r after Hr _ IH]; [done|].
      by rewrite filter_cons_False. }
    rewrite Hnil. by rewrite last_snoc. }
  destruct (feature_output_pushed NumberToString path typeOverride
              (flow_table NumberToString w csvText) feature (trim MapID) g
              Hid Hne Hnorm) as (f & Hout & _ & _ & _ & Hflows).
  exists f. split; [exact Hout|]. by rewrite Hflows, Hrow.
Qed.

Lemma join_on_trimmed_identifier_witness :
  exists f,
    feature_output NumberToString_decimal "/fake/canals.shp" None
      (flow_table NumberToString_decimal
         (world_of [ {[ "MapID" := CStr " C1 "; "1979" := CStr "2" ]} ] []) "table")
      (line "C1  " segment) = [f]
    /\ FlowFeature.flows (FlowFeature.properties f)
       = row_flows NumberToString_decimal
           {[ "MapID" := CStr " C1 "; "1979" := CStr "2" ]}.
Proof.
  apply (join_on_trimmed_identifier NumberToString_decimal
           (world_of [ {[ "MapID" := CStr " C1 "; "1979" := CStr "2" ]} ] [])
           "table" "/fake/canals.shp" None (line "C1  " segment) [] []
           {[ "MapID" := CStr " C1 "; "1979" := CStr "2" ]} " C1 " (VStr "C1  ")
           (GeoJSON.LineString segment)).
  - reflexivity.
  - reflexivity.
  - constructor.
  - reflexivity.
  - reflexivity.
  - discriminate.
  - reflexivity.
Defined.

(** ** What the console says *)

Section ConsoleFacts.

Variable NumberToString : jsnum -> string.

Lemma feature_diags_no_flow_inv (path : string) (typeOverride : option FeatureType)
    (table : gmap string (gmap string jsnum)) (feature : GeoJSON.Feature)
    (mapId p : string) :
  WarnNoFlowData mapId p
  ∈ feature_diags NumberToString path typeOverride table feature ->
  p = path /\ mapId_of NumberToString feature = Some mapId /\ mapId <> ""
  /\ table !! mapId = None.
Proof.
  unfold feature_diags, process_feature.
  destruct (mapId_of NumberToString feature) as [m|].
  2: { unfold log, empty_store. cbn [console app].
       intros H%list_elem_of_singleton. discriminate. }
  destruct (String.eqb_spec m "") as [->|Hne].
  { unfold log, empty_store. cbn [console app].
    intros H%list_elem_of_singleton. discriminate. }
  destruct (table !! m) eqn:Hrow;
    destruct (GeoJSON.geometry feature) as [[c|cs|[|first rest]|kind]|];
    cbn [normalize]; unfold push, log, empty_store; cbn [console app];
    rewrite ?elem_of_cons, ?elem_of_nil; intros H;
    repeat match type of H with _ \/ _ => destruct H as [H|H] end;
    try done; try discriminate; by injection H as -> ->.
Qed.

Lemma source_diags_no_flow_inv (w : World) (table : gmap string (gmap string jsnum))
    (cfg : ShapefileConfig) (mapId p : string) :
  WarnNoFlowData mapId p ∈ source_diags NumberToString w table cfg ->
  exists decoded feature,
    load_source w cfg = Ok decoded /\ feature ∈ decoded
    /\ WarnNoFlowData mapId p
       ∈ feature_diags NumberToString (path cfg) (typeOverride cfg) table feature.
Proof.
  destruct (load_source w cfg) as [decoded|e] eqn:Hload.
  - rewrite (source_diags_load NumberToString w table cfg decoded Hload).
    rewrite elem_of_app. intros [Hin|Hin].
    + rewrite !elem_of_cons, elem_of_nil in Hin.
      destruct Hin as [?|[?|[?|[]]]]; discriminate.
    + apply list_elem_of_In, in_flat_map in Hin as (feature & Hfeature & Hin).
      exists decoded, feature. rewrite <- !list_elem_of_In in *. done.
  - unfold source_diags, process_source. unfold load_source in Hload.
    destruct (Promise_all _ _) as [[shp dbf]|e'].
    + rewrite Hload. unfold log, empty_store. cbn [console app].
      rewrite !elem_of_cons, elem_of_nil. intros [?|[?|[?|[]]]]; discriminate.
    + unfold log, empty_store. cbn [console app].
      rewrite !elem_of_cons, elem_of_nil. intros [?|[?|[]]]; discriminate.
Qed.

End ConsoleFacts.

(** X10: the warning of line 126 is never a false alarm: wherever the
    console of a run says that an identifier of a source has no flow data,
    the identifier is the non-empty identifier of a decoded feature of a
    configured source with that path, and the table has no entry for it. *)
Theorem no_flow_warning_sound (NumberToString : jsnum -> string) (w : World)
    (csvFilePath : string) (shapefileConfigs : list ShapefileConfig)
    (mapId p : string) :
  WarnNoFlowData mapId p
  ∈ (fetchAndProcessDataForAllSources NumberToString w csvFilePath
       shapefileConfigs).2 ->
  exists csvText cfg decoded feature,
    fetch_csv w csvFilePath = Ok csvText
    /\ cfg ∈ shapefileConfigs
    /\ path cfg = p
    /\ load_source w cfg = Ok decoded
    /\ feature ∈ decoded
    /\ mapId_of NumberToString feature = Some mapId
    /\ mapId <> ""
    /\ flow_table NumberToString w csvText !! mapId = None.
Proof.
  rewrite run_shape.
  destruct (fetch_csv w csvFilePath) as [csvText|e].
  2: { cbn [snd]. rewrite !elem_of_cons, elem_of_nil.
       intros [?|[?|[]]]; discriminate. }
  cbv zeta. cbn [snd]. unfold build_flowDataMap. rewrite rows_console.
  rewrite !elem_of_app. intros [[[Hin|Hin]|Hin]|[Hin|[Hin|Hin]]].
  - rewrite !elem_of_cons, elem_of_nil in Hin.
    destruct Hin as [?|[?|[]]]; discriminate.
  - destruct (errors (Papa_parse w csvText)).
    + by apply elem_of_nil in Hin.
    + apply list_elem_of_singleton in Hin. discriminate.
  - apply list_elem_of_fmap in Hin as (row & Hrow & _). discriminate.
  - apply list_elem_of_singleton in Hin. discriminate.
  - apply list_elem_of_In, in_flat_map in Hin as (cfg & Hcfg & Hin).
    apply list_elem_of_In, source_diags_no_flow_inv in Hin
      as (decoded & feature & Hload & Hfeature & Hin).
    apply feature_diags_no_flow_inv in Hin as (-> & Hid & Hne & Hnone).
    exists csvText, cfg, decoded, feature.
    rewrite <- list_elem_of_In in Hcfg. done.
  - apply list_elem_of_singleton in Hin. discriminate.
Qed.

Lemma no_flow_warning_sound_witness :
  WarnNoFlowData "W1" "/fake/weirs.shp"
  ∈ (fetchAndProcessDataForAllSources NumberToString_decimal world_partial csvUrl
       [canals; rivers; weirs]).2
  /\ exists csvText,
       fetch_csv world_partial csvUrl = Ok csvText
       /\ flow_table NumberToString_decimal world_partial csvText !! "W1" = None.
Proof.
  assert (Hin : WarnNoFlowData "W1" "/fake/weirs.shp"
                ∈ (fetchAndProcessDataForAllSources NumberToString_decimal
                     world_partial csvUrl [canals; rivers; weirs]).2).
  { vm_compute. do 11 apply list_elem_of_further. apply list_elem_of_here. }
  split; [exact Hin|].
  destruct (no_flow_warning_sound NumberToString_decimal world_partial csvUrl
              [canals; rivers; weirs] "W1" "/fake/weirs.shp" Hin)
    as (csvText & _ & _ & _ & Hcsv & _ & _ & _ & _ & _ & _ & Hnone).
  exists csvText. split; [exact Hcsv | exact Hnone].
Defined.

(** ** The URL of the attribute file *)

Lemma startsWith_dot (p pat x : string) :
  no_dot pat = true -> startsWith p pat = false ->
  startsWith (p +:+ String "." x) pat = false.
Proof.
  revert p. induction pat as [|c pat IH]; intros p Hdot;
    [destruct p; discriminate|].
  cbn [no_dot] in Hdot. apply andb_prop in Hdot as [Hc Hpat].
  destruct p as [|a p].
  - intros _. rewrite string_app_nil. cbn [startsWith].
    destruct (Ascii.eqb_spec "." c) as [<-|_]; [discriminate|done].
  - rewrite string_app_cons. cbn [startsWith].
    destruct (Ascii.eqb a c); [by apply IH | done].
Qed.

Lemma replace_cons (a : ascii) (s pat by_ : string) :
  replace (String a s) pat by_ =
    if startsWith (String a s) pat
    then by_ +:+ drop_chars (String.length pat) (String a s)
    else String a (replace s pat by_).
Proof. reflexivity. Qed.

(** X11: the attribute file of a source is fetched from the path of the
    source with its first ".shp" replaced by ".dbf", whatever follows; and
    for a path without ".shp" (another case of the extension, say) it is
    fetched from the path itself, the URL of the geometry file. *)
Theorem attribute_file_url (prefix rest path : string) :
  (includes prefix ".shp" = false ->
   replace (prefix +:+ ".shp" +:+ rest) ".shp" ".dbf" = prefix +:+ ".dbf" +:+ rest)
  /\ (includes path ".shp" = false -> replace path ".shp" ".dbf" = path).
Proof.
  split.
  - induction prefix as [|a prefix IH].
    { intros _. destruct rest; reflexivity. }
    intros Hnone. cbn [includes] in Hnone.
    apply orb_false_elim in Hnone as [Hhere Hlater].
    rewrite !(string_app_cons a prefix), replace_cons.
    assert (Hstart : startsWith (String a (prefix +:+ ".shp" +:+ rest)) ".shp" = false).
    { cbn [startsWith] in *. destruct (Ascii.eqb a "."); [|done].
      change (".shp" +:+ rest) with (String "." ("shp" +:+ rest)).
      by apply startsWith_dot. }
    rewrite Hstart. by rewrite IH.
  - induction path as [|a path IH]; [intros _; reflexivity|].
    intros Hnone. cbn [includes] in Hnone.
    apply orb_false_elim in Hnone as [Hhere Hlater].
    rewrite replace_cons, Hhere. by rewrite IH.
Qed.

Lemma attribute_file_url_witness :
  replace "/data.v2/rivers.shp.shp" ".shp" ".dbf" = "/data.v2/rivers.dbf.shp"
  /\ replace "/fake/CANALS.SHP" ".shp" ".dbf" = "/fake/CANALS.SHP".
Proof.
  destruct (attribute_file_url "/data.v2/rivers" ".shp" "/fake/CANALS.SHP")
    as [Hfirst Hnone].
  split; [apply Hfirst; reflexivity | apply Hnone; reflexivity].
Defined.

(** ** The worker's answer and the hook *)

(** X12: the worker answers only the message ['loadData'], and with one
    message: the list of the run over the three shapefiles of
    [loadAndProcessData] when the table could be fetched, whatever happened
    to the shapefiles, or the error of the table's fetch. *)
Theorem worker_reply (NumberToString : jsnum -> string) (w : World) (data : jsval) :
  (self_onmessage NumberToString w data = None <-> data <> VStr "loadData")
  /\ (forall error,
        self_onmessage NumberToString w (VStr "loadData")
        = Some (UseFlowData.dataError error)
        <-> fetch_csv w csvFilePath = Throw error)
  /\ (forall payload,
        self_onmessage NumberToString w (VStr "loadData")
        = Some (UseFlowData.dataLoaded payload)
        <-> exists csvText,
              fetch_csv w csvFilePath = Ok csvText
              /\ payload
                 = flat_map (source_output NumberToString w
                               (flow_table NumberToString w csvText))
                            shapefilePathsConfig)
  /\ self_onmessage NumberToString w (VStr "loadData")
     <> Some UseFlowData.otherMessage.
Proof.
  assert (Hload : self_onmessage NumberToString w (VStr "loadData") =
            match fetch_csv w csvFilePath with
            | Ok csvText =>
                Some (UseFlowData.dataLoaded
                        (flat_map (source_output NumberToString w
                                     (flow_table NumberToString w csvText))
                                  shapefilePathsConfig))
            | Throw error => Some (UseFlowData.dataError error)
            end).
  { unfold self_onmessage, loadAndProcessData. cbn [String.eqb Ascii.eqb Bool.eqb].
    rewrite run_shape. by destruct (fetch_csv w csvFilePath). }
  split; [|rewrite Hload; destruct (fetch_csv w csvFilePath) as [csvText|e]].
  - destruct data as [| |b|n|s]; try (split; [done|done]).
    destruct (String.eqb_spec s "loadData") as [->|Hne].
    + rewrite Hload.
      destruct (fetch_csv w csvFilePath); split; [done|congruence|done|congruence].
    + unfold self_onmessage.
      destruct (String.eqb_spec s "loadData") as [->|_]; [done|].
      split; [congruence|done].
  - split; [split; [discriminate|discriminate]|]. split; [|discriminate].
    intros payload. split.
    + intros [= <-]. by exists csvText.
    + intros (csvText' & [= <-] & ->). reflexivity.
  - split; [split; congruence|]. split; [|discriminate].
    intros payload. split; [discriminate|]. by intros (? & ? & _).
Qed.

Example worker_reply_table_missing :
  self_onmessage NumberToString_decimal world_partial (VStr "loadData")
  = Some (UseFlowData.dataError "Failed to fetch").
Proof. vm_compute. reflexivity. Qed.

Section HookFacts.

Import UseFlowData.

Lemma checkData_cases (p : nat) (s : Shim) :
  (exists o, checkData p s = settle p o s) \/ checkData p s = setTimeout p s.
Proof.
  unfold checkData.
  destruct (error_set s); [eauto|]. destruct (data_set s); [eauto|].
  destruct (negb (isLoadingData s) && _ && _); eauto.
Qed.

Lemma queryFn_cases (p : nat) (s : Shim) :
  (exists o, queryFn p s = settle p o s) \/ queryFn p s = setTimeout p s.
Proof.
  unfold queryFn.
  destruct (error_set s); [eauto|]. destruct (data_set s); [eauto|].
  apply checkData_cases.
Qed.

Lemma promises_settle (p : nat) (o : Outcome) (s : Shim) :
  promises (settle p o s) = waiting s ++ (settled s).*1 ++ [p].
Proof. unfold promises. cbn [waiting settled settle]. by rewrite fmap_app. Qed.

Lemma promises_setTimeout (p : nat) (s : Shim) :
  promises (setTimeout p s) = (waiting s ++ [p]) ++ (settled s).*1.
Proof. reflexivity. Qed.

Lemma NoDup_add_waiting (p : nat) (ws ss : list nat) :
  p ∉ ws -> p ∉ ss -> NoDup (ws ++ ss) -> NoDup ((ws ++ [p]) ++ ss).
Proof.
  intros Hw Hs Hnd. apply NoDup_app in Hnd as (Hws & Hdisj & Hss).
  apply NoDup_app. split; [|split; [|done]].
  - apply NoDup_app. split; [done|]. split; [|apply NoDup_singleton].
    intros x Hx ->%list_elem_of_singleton. done.
  - intros x [Hx| ->%list_elem_of_singleton]%elem_of_app; auto.
Qed.

Lemma NoDup_add_settled (p : nat) (ws ss : list nat) :
  p ∉ ws -> p ∉ ss -> NoDup (ws ++ ss) -> NoDup (ws ++ ss ++ [p]).
Proof.
  intros Hw Hs Hnd. apply NoDup_app in Hnd as (Hws & Hdisj & Hss).
  apply NoDup_app. split; [done|]. split.
  - intros x Hx [Hin| ->%list_elem_of_singleton]%elem_of_app; [by apply (Hdisj x)|done].
  - apply NoDup_app. split; [done|]. split; [|apply NoDup_singleton].
    intros x Hx ->%list_elem_of_singleton. done.
Qed.

Lemma step_promises (s : Shim) (ev : Event) (s' : Shim) :
  step s ev s' -> NoDup (promises s) ->
  NoDup (promises s')
  /\ forall p, p ∈ promises s' <-> p ∈ promises s \/ ev = EvQuery p.
Proof.
  intros Hstep Hnd.
  destruct Hstep as [m s Hw|message s Hw|q s Hnew|q s Hwait].
  - assert (Hsame : promises (onmessage m s) = promises s) by (by destruct m).
    rewrite Hsame. split; [done|]. intros p.
    split; [tauto|]. intros [H|H]; [done|discriminate].
  - split; [done|]. intros p.
    change (promises (onerror message s)) with (promises s).
    split; [tauto|]. intros [H|H]; [done|discriminate].
  - assert (Hqw : q ∉ waiting s) by (intros ?; apply Hnew; by left).
    assert (Hqs : q ∉ (settled s).*1) by (intros ?; apply Hnew; by right).
    assert (Hev : forall p, EvQuery q = EvQuery p <-> p = q).
    { intros p. split; [by intros [= ->] | by intros ->]. }
    destruct (queryFn_cases q s) as [[o ->]| ->].
    + rewrite promises_settle. split; [by apply NoDup_add_settled|].
      intros p. unfold promises. rewrite !elem_of_app, list_elem_of_singleton, Hev.
      tauto.
    + rewrite promises_setTimeout. split; [by apply NoDup_add_waiting|].
      intros p. unfold promises. rewrite !elem_of_app, list_elem_of_singleton, Hev.
      tauto.
  - unfold promises in Hnd. apply NoDup_app in Hnd as (Hws & Hdisj & Hss).
    assert (Hqs : q ∉ (settled s).*1) by (by apply Hdisj).
    assert (Hqf : q ∉ filter (fun r => r ≠ q) (waiting s)).
    { rewrite list_elem_of_filter. tauto. }
    assert (Hnd' : NoDup (filter (fun r => r ≠ q) (waiting s) ++ (settled s).*1)).
    { apply NoDup_app. split; [by apply NoDup_filter|]. split; [|done].
      intros x [_ Hx]%list_elem_of_filter. by apply Hdisj. }
    assert (Hsame : forall p,
               p ∈ filter (fun r => r ≠ q) (waiting s) \/ p = q <-> p ∈ waiting s).
    { intros p. rewrite list_elem_of_filter.
      destruct (decide (p = q)) as [->|Hne]; tauto. }
    assert (Hev : forall p, EvTimeout q = EvQuery p <-> False).
    { intros p. split; [discriminate|tauto]. }
    destruct (checkData_cases q (clearTimeout q s)) as [[o ->]| ->].
    + rewrite promises_settle. cbn [waiting settled clearTimeout].
      split; [by apply NoDup_add_settled|].
      intros p. unfold promises.
      rewrite !elem_of_app, list_elem_of_singleton, Hev, <- (Hsame p). tauto.
    + rewrite promises_setTimeout. cbn [waiting settled clearTimeout].
      split; [by apply NoDup_add_waiting|].
      intros p. unfold promises.
      rewrite !elem_of_app, list_elem_of_singleton, Hev, <- (Hsame p). tauto.
Qed.

Lemma run_promises (s : Shim) (evs : list Event) (s' : Shim) :
  run s evs s' -> NoDup (promises s) ->
  NoDup (promises s')
  /\ forall p, p ∈ promises s' <-> p ∈ promises s \/ EvQuery p ∈ evs.
Proof.
  induction 1 as [s|s ev s1 evs s2 Hstep _ IH]; intros Hnd.
  - split; [done|]. intros p. rewrite elem_of_nil. tauto.
  - destruct (step_promises s ev s1 Hstep Hnd) as [Hnd1 Hstep1].
    destruct (IH Hnd1) as [Hnd2 Hrun]. split; [done|].
    intros p. rewrite Hrun, Hstep1, elem_of_cons.
    split; [intros [[?|?]|?]; auto | intros [?|[?|?]]; auto].
Qed.

(** Where the module is not loading no promise is made to wait. *)
Lemma idle_step_waiting (s : Shim) (ev : Event) (s' : Shim) :
  step s ev s' -> worker s <> Running -> isLoadingData s = false ->
  forall p, p ∈ waiting s' -> p ∈ waiting s.
Proof.
  intros Hstep Hw Hidle.
  destruct Hstep as [m s Hrun|message s Hrun|q s Hnew|q s Hwait]; [done|done| |].
  - rewrite (queryFn_idle q s Hidle). done.
  - rewrite (checkData_idle q (clearTimeout q s) Hidle).
    cbn [waiting settle clearTimeout]. intros p [_ Hp]%list_elem_of_filter. done.
Qed.

Lemma idle_run_waiting (s : Shim) (evs : list Event) (s' : Shim) :
  run s evs s' -> worker s <> Running -> isLoadingData s = false ->
  forall p, p ∈ waiting s' -> p ∈ waiting s.
Proof.
  induction 1 as [s|s ev s1 evs s2 Hstep _ IH]; [done|].
  intros Hw Hidle p Hp.
  destruct (idle_step s ev s1 Hstep Hw) as (Hw1 & _ & _ & Hl & _).
  apply (idle_step_waiting s ev s1 Hstep Hw Hidle).
  apply IH; [by rewrite Hw1 | by rewrite Hl | done].
Qed.

End HookFacts.

Section EndToEnd.

Import UseFlowData.

Variable NumberToString : jsnum -> string.

Lemma self_onmessage_loadData (w : World) :
  self_onmessage NumberToString w (VStr "loadData") =
    match fetch_csv w csvFilePath with
    | Ok csvText =>
        Some (dataLoaded
                (flat_map (source_output NumberToString w
                             (flow_table NumberToString w csvText))
                          shapefilePathsConfig))
    | Throw error => Some (dataError error)
    end.
Proof.
  unfold self_onmessage, loadAndProcessData. cbn [String.eqb Ascii.eqb Bool.eqb].
  rewrite run_shape. by destruct (fetch_csv w csvFilePath).
Qed.

Lemma outcome_caches (s s' : Shim) :
  workerDataCache s' = workerDataCache s ->
  workerErrorCache s' = workerErrorCache s ->
  outcome s' = outcome s.
Proof.
  intros Hd He. unfold outcome, error_set, data_set. by rewrite Hd, He.
Qed.

(** After the answer of the worker every settled promise has the outcome
    the answer gives. *)
Lemma settled_after_answer (evs : list Event) (s : Shim) (m : Message)
    (evs' : list Event) (s' : Shim) (p : nat) (o : Outcome) :
  run (init true) evs s -> worker s = Running ->
  run (onmessage m s) evs' s' ->
  (p, o) ∈ settled s' -> o = outcome (onmessage m s).
Proof.
  intros Hrun Hw Hrun' Hin.
  pose proof (inv_run true _ _ _ Hrun (inv_init true)) as Hinv.
  pose proof (inv_step true s (EvMessage m) _ (step_message m s Hw) Hinv) as Hinv1.
  pose proof (inv_run true _ _ _ Hrun' Hinv1) as [_ Hinv2].
  assert (Hterm : worker (onmessage m s) <> Running) by (by destruct m).
  destruct (idle_run _ _ _ Hrun' Hterm) as (Hd & He & Hl & _).
  rewrite <- (outcome_caches (onmessage m s) s' Hd He).
  destruct (worker s').
  - by apply (proj2 Hinv2 p).
  - destruct Hinv2 as (Hloading & _). rewrite Hl in Hloading. by destruct m.
  - by apply (proj2 Hinv2 p).
Qed.

End EndToEnd.

(** X13: worker and hook together: once the answer of the worker to
    ['loadData'] has arrived, every promise of [queryFn] that settles,
    whenever it was requested, resolves with the list of the run when the
    table could be fetched (shapefiles that fail do not turn this into a
    failure), and else rejects with the error of the table's fetch, or with
    "Failed to load data from worker." when that error has an empty
    message. *)
Theorem hook_delivers_run (NumberToString : jsnum -> string) (w : World)
    (evs : list UseFlowData.Event) (s : UseFlowData.Shim) (m : UseFlowData.Message)
    (evs' : list UseFlowData.Event) (s' : UseFlowData.Shim)
    (p : nat) (o : UseFlowData.Outcome) :
  UseFlowData.run (UseFlowData.init true) evs s ->
  UseFlowData.worker s = UseFlowData.Running ->
  self_onmessage NumberToString w (VStr "loadData") = Some m ->
  UseFlowData.run (UseFlowData.onmessage m s) evs' s' ->
  (p, o) ∈ UseFlowData.settled s' ->
  o = match fetch_csv w csvFilePath with
      | Ok csvText =>
          UseFlowData.Resolved
            (flat_map (source_output NumberToString w
                         (flow_table NumberToString w csvText))
                      shapefilePathsConfig)
      | Throw error =>
          if String.eqb error "" then
            UseFlowData.Rejected "Failed to load data from worker."
          else UseFlowData.Rejected error
      end.
Proof.
  intros Hrun Hw Hm Hrun' Hin.
  rewrite (settled_after_answer evs s m evs' s' p o Hrun Hw Hrun' Hin).
  rewrite self_onmessage_loadData in Hm.
  destruct (fetch_csv w csvFilePath) as [csvText|error]; injection Hm as <-.
  - reflexivity.
  - unfold UseFlowData.outcome, UseFlowData.error_set, UseFlowData.data_set. cbn.
    by destruct (String.eqb error "").
Qed.

Lemma hook_delivers_run_witness :
  UseFlowData.run (UseFlowData.init true) [UseFlowData.EvQuery 1] one_request_loading
  /\ self_onmessage NumberToString_decimal world_table_only (VStr "loadData")
     = Some (UseFlowData.dataLoaded [])
  /\ UseFlowData.run
       (UseFlowData.onmessage (UseFlowData.dataLoaded []) one_request_loading)
       [UseFlowData.EvTimeout 1] one_request_served
  /\ UseFlowData.Resolved []
     = match fetch_csv world_table_only csvFilePath with
       | Ok csvText =>
           UseFlowData.Resolved
             (flat_map (source_output NumberToString_decimal world_table_only
                          (flow_table NumberToString_decimal world_table_only csvText))
                       shapefilePathsConfig)
       | Throw error =>
           if String.eqb error "" then
             UseFlowData.Rejected "Failed to load data from worker."
           else UseFlowData.Rejected error
       end.
Proof.
  assert (H1 : UseFlowData.run (UseFlowData.init true) [UseFlowData.EvQuery 1]
                 one_request_loading).
  { apply exec_all_run. vm_compute. reflexivity. }
  assert (H2 : self_onmessage NumberToString_decimal world_table_only (VStr "loadData")
               = Some (UseFlowData.dataLoaded [])).
  { vm_compute. reflexivity. }
  assert (H3 : UseFlowData.run
                 (UseFlowData.onmessage (UseFlowData.dataLoaded []) one_request_loading)
                 [UseFlowData.EvTimeout 1] one_request_served).
  { apply exec_all_run. vm_compute. reflexivity. }
  repeat (split; [assumption|]).
  apply (hook_delivers_run NumberToString_decimal world_table_only
           [UseFlowData.EvQuery 1] one_request_loading (UseFlowData.dataLoaded [])
           [UseFlowData.EvTimeout 1] one_request_served 1 (UseFlowData.Resolved []));
    [exact H1 | reflexivity | exact H2 | exact H3 | apply list_elem_of_here].
Defined.

(** X14: where there are no workers, nothing is ever posted, no promise is
    ever made to wait, and every promise rejects with "Web Workers are not
    supported.". *)
Theorem no_worker_rejects (evs : list UseFlowData.Event) (s : UseFlowData.Shim) :
  UseFlowData.run (UseFlowData.init false) evs s ->
  UseFlowData.posted s = 0
  /\ UseFlowData.waiting s = []
  /\ filter (fun ev => UseFlowData.from_worker ev = true) evs = []
  /\ forall p o,
       (p, o) ∈ UseFlowData.settled s ->
       o = UseFlowData.Rejected "Web Workers are not supported.".
Proof.
  intros Hrun.
  assert (Hw : UseFlowData.worker (UseFlowData.init false) <> UseFlowData.Running)
    by discriminate.
  destruct (idle_run _ _ _ Hrun Hw) as (Hd & He & Hl & Hp & Hevs).
  pose proof (inv_run false _ _ _ Hrun (inv_init false)) as [_ Hinv].
  split; [exact Hp|]. split; [|split; [exact Hevs|]].
  - apply elem_of_nil_inv. intros p Hin.
    apply (idle_run_waiting _ _ _ Hrun Hw eq_refl) in Hin.
    by apply elem_of_nil in Hin.
  - intros p o Hin.
    assert (Hout : UseFlowData.outcome s
                   = UseFlowData.Rejected "Web Workers are not supported.").
    { by rewrite (outcome_caches (UseFlowData.init false) s Hd He). }
    rewrite <- Hout.
    destruct (UseFlowData.worker s).
    + by apply (proj2 Hinv p).
    + destruct Hinv as (Hloading & _). rewrite Hl in Hloading. discriminate.
    + by apply (proj2 Hinv p).
Qed.

Lemma no_worker_rejects_witness :
  UseFlowData.run (UseFlowData.init false)
    [UseFlowData.EvQuery 1; UseFlowData.EvQuery 2] no_worker_two_requests
  /\ forall p o,
       (p, o) ∈ UseFlowData.settled no_worker_two_requests ->
       o = UseFlowData.Rejected "Web Workers are not supported.".
Proof.
  assert (Hrun : UseFlowData.run (UseFlowData.init false)
                   [UseFlowData.EvQuery 1; UseFlowData.EvQuery 2]
                   no_worker_two_requests).
  { apply exec_all_run. vm_compute. reflexivity. }
  split; [exact Hrun|].
  apply (no_worker_rejects [UseFlowData.EvQuery 1; UseFlowData.EvQuery 2]
           no_worker_two_requests Hrun).
Defined.

(** X15: the module loses no request and answers none twice: in every
    state it can reach, the promises that wait and the promises that are
    settled are exactly the promises that were requested, and no promise is
    among them twice. *)
Theorem promises_accounted (hasWorker : bool) (evs : list UseFlowData.Event)
    (s : UseFlowData.Shim) :
  UseFlowData.run (UseFlowData.init hasWorker) evs s ->
  NoDup (UseFlowData.waiting s ++ (UseFlowData.settled s).*1)
  /\ forall p,
       UseFlowData.EvQuery p ∈ evs
       <-> p ∈ UseFlowData.waiting s \/ p ∈ (UseFlowData.settled s).*1.
Proof.
  intros Hrun.
  destruct (run_promises _ _ _ Hrun) as [Hnd Hknown].
  { destruct hasWorker; apply NoDup_nil_2. }
  split; [exact Hnd|]. intros p. rewrite <- elem_of_app.
  change (UseFlowData.waiting s ++ (UseFlowData.settled s).*1)
    with (UseFlowData.promises s).
  rewrite Hknown. split; [tauto|]. intros [Hin|Hin]; [|done].
  destruct hasWorker; by apply elem_of_nil in Hin.
Qed.

Lemma promises_accounted_witness :
  UseFlowData.run (UseFlowData.init true) two_requests after_two_requests
  /\ NoDup (UseFlowData.waiting after_two_requests
            ++ (UseFlowData.settled after_two_requests).*1)
  /\ (UseFlowData.EvQuery 2 ∈ two_requests
      <-> 2 ∈ UseFlowData.waiting after_two_requests
          \/ 2 ∈ (UseFlowData.settled after_two_requests).*1).
Proof.
  assert (Hrun : UseFlowData.run (UseFlowData.init true) two_requests
                   after_two_requests).
  { apply exec_all_run. vm_compute. reflexivity. }
  split; [exact Hrun|].
  destruct (promises_accounted true two_requests after_two_requests Hrun)
    as [Hnd Hknown].
  split; [exact Hnd | apply Hknown].
Defined.

(** ** Runs over parts of a configuration, and over an empty table *)

(** X16: sources do not influence each other: when the table can be
    fetched, the list for a configuration made of two parts is the list for
    the first part followed by the list for the second. *)
Theorem run_over_parts (NumberToString : jsnum -> string) (w : World)
    (csvFilePath csvText : string) (cfgs1 cfgs2 : list ShapefileConfig) :
  fetch_csv w csvFilePath = Ok csvText ->
  exists fs1 fs2,
    (fetchAndProcessDataForAllSources NumberToString w csvFilePath cfgs1).1 = Ok fs1
    /\ (fetchAndProcessDataForAllSources NumberToString w csvFilePath cfgs2).1 = Ok fs2
    /\ (fetchAndProcessDataForAllSources NumberToString w csvFilePath
          (cfgs1 ++ cfgs2)).1 = Ok (fs1 ++ fs2).
Proof.
  intros Hcsv. rewrite !run_shape, Hcsv. cbv zeta. cbn [fst].
  eexists _, _. split; [reflexivity|]. split; [reflexivity|].
  by rewrite flat_map_app.
Qed.

Lemma run_over_parts_witness :
  fetch_csv world_partial csvUrl = Ok "table"
  /\ (fetchAndProcessDataForAllSources NumberToString_decimal world_partial csvUrl
        ([canals] ++ [rivers; weirs])).1 = Ok ([feature_C1] ++ [feature_W1]).
Proof.
  split; [reflexivity|].
  destruct (run_over_parts NumberToString_decimal world_partial csvUrl "table"
              [canals] [rivers; weirs]) as (fs1 & fs2 & H1 & H2 & H12);
    [reflexivity|].
  assert (E1 : fs1 = [feature_C1]).
  { assert (H : (fetchAndProcessDataForAllSources NumberToString_decimal
                   world_partial csvUrl [canals]).1 = Ok [feature_C1])
      by (vm_compute; reflexivity).
    rewrite H in H1. by injection H1. }
  assert (E2 : fs2 = [feature_W1]).
  { assert (H : (fetchAndProcessDataForAllSources NumberToString_decimal
                   world_partial csvUrl [rivers; weirs]).1 = Ok [feature_W1])
      by (vm_compute; reflexivity).
    rewrite H in H2. by injection H2. }
  by rewrite <- E1, <- E2.
Defined.



(** ** The polls after the answer *)

Section PollFacts.

Import UseFlowData.

Lemma idle_step_settled (s : Shim) (ev : Event) (s' : Shim) :
  step s ev s' -> forall x, x ∈ settled s -> x ∈ settled s'.
Proof.
  intros Hstep x Hx.
  destruct Hstep as [m s Hrun|message s Hrun|q s Hnew|q s Hwait].
  - by destruct m.
  - done.
  - destruct (queryFn_cases q s) as [[o ->]| ->]; [|done].
    cbn [settled settle]. apply elem_of_app. by left.
  - destruct (checkData_cases q (clearTimeout q s)) as [[o ->]| ->]; [|done].
    cbn [settled settle clearTimeout]. apply elem_of_app. by left.
Qed.

Lemma run_settled (s : Shim) (evs : list Event) (s' : Shim) :
  run s evs s' -> forall x, x ∈ settled s -> x ∈ settled s'.
Proof.
  induction 1 as [s|s ev s1 evs s2 Hstep _ IH]; [done|].
  intros x Hx. apply IH. by apply (idle_step_settled s ev s1).
Qed.

Lemma poll_settles (s : Shim) (evs : list Event) (s' : Shim) (p : nat) :
  run s evs s' -> worker s <> Running -> isLoadingData s = false ->
  EvTimeout p ∈ evs ->
  (p, outcome s) ∈ settled s' /\ p ∉ waiting s'.
Proof.
  induction 1 as [s|s ev s1 evs s2 Hstep Hrun IH]; intros Hw Hidle Hin.
  { by apply elem_of_nil in Hin. }
  destruct (idle_step s ev s1 Hstep Hw) as (Hw1 & Hd & He & Hl & _).
  assert (Hw1' : worker s1 <> Running) by (by rewrite Hw1).
  assert (Hidle1 : isLoadingData s1 = false) by (by rewrite Hl).
  apply elem_of_cons in Hin as [<-|Hin].
  - inversion Hstep as [| | |q s0 Hwait]; subst.
    rewrite (checkData_idle p (clearTimeout p s) Hidle) in Hrun.
    split.
    + apply (run_settled _ _ _ Hrun). cbn [settled settle clearTimeout].
      apply elem_of_app. right. apply list_elem_of_here.
    + intros Hp. apply (idle_run_waiting _ _ _ Hrun) in Hp; [|done|done].
      cbn [waiting settle clearTimeout] in Hp.
      apply list_elem_of_filter in Hp as [Hp _]. done.
  - rewrite <- (outcome_caches s s1 Hd He). by apply IH.
Qed.

End PollFacts.

(** X18: no promise waits for ever: once the worker has answered (or where
    there is none), a promise is settled by its next poll, with the outcome
    of the caches, and it stays settled and never waits again, whatever
    happens afterwards. *)
Theorem poll_after_answer_settles (hasWorker : bool)
    (evs : list UseFlowData.Event) (s : UseFlowData.Shim)
    (evs' : list UseFlowData.Event) (s' : UseFlowData.Shim) (p : nat) :
  UseFlowData.run (UseFlowData.init hasWorker) evs s ->
  UseFlowData.worker s <> UseFlowData.Running ->
  UseFlowData.run s evs' s' ->
  UseFlowData.EvTimeout p ∈ evs' ->
  (p, UseFlowData.outcome s) ∈ UseFlowData.settled s'
  /\ p ∉ UseFlowData.waiting s'.
Proof.
  intros Hrun Hw Hrun' Hin.
  pose proof (inv_run hasWorker _ _ _ Hrun (inv_init hasWorker)) as [_ Hinv].
  assert (Hidle : UseFlowData.isLoadingData s = false).
  { destruct (UseFlowData.worker s); [apply Hinv|done|apply Hinv]. }
  by apply (poll_settles s evs' s' p).
Qed.

Lemma poll_after_answer_settles_witness :
  UseFlowData.run (UseFlowData.init true)
    [UseFlowData.EvQuery 1; UseFlowData.EvMessage (UseFlowData.dataLoaded [])]
    (UseFlowData.onmessage (UseFlowData.dataLoaded []) one_request_loading)
  /\ UseFlowData.run
       (UseFlowData.onmessage (UseFlowData.dataLoaded []) one_request_loading)
       [UseFlowData.EvTimeout 1] one_request_served
  /\ (1, UseFlowData.Resolved []) ∈ UseFlowData.settled one_request_served
  /\ 1 ∉ UseFlowData.waiting one_request_served.
Proof.
  assert (H1 : UseFlowData.run (UseFlowData.init true)
                 [UseFlowData.EvQuery 1;
                  UseFlowData.EvMessage (UseFlowData.dataLoaded [])]
                 (UseFlowData.onmessage (UseFlowData.dataLoaded [])
                    one_request_loading)).
  { apply exec_all_run. vm_compute. reflexivity. }
  assert (H2 : UseFlowData.run
                 (UseFlowData.onmessage (UseFlowData.dataLoaded [])
                    one_request_loading)
                 [UseFlowData.EvTimeout 1] one_request_served).
  { apply exec_all_run. vm_compute. reflexivity. }
  split; [exact H1|]. split; [exact H2|].
  apply (poll_after_answer_settles true
           [UseFlowData.EvQuery 1; UseFlowData.EvMessage (UseFlowData.dataLoaded [])]
           (UseFlowData.onmessage (UseFlowData.dataLoaded []) one_request_loading)
           [UseFlowData.EvTimeout 1] one_request_served 1 H1);
    [discriminate | exact H2 | apply list_elem_of_here].
Defined.
